(** * FingerRidgets: the finishing steps of [FingerRegionRecognizerTemplate]

    A shallow embedding of [abc_finger_region_recognizer.py]: minutiae
    scoring by crossing numbers, selection of the analysis region under a
    validity mask, ridge counting along the diagonals of that region, and the
    annotation of the result.

    Python integers are [Z]; a two-dimensional NumPy array is a list of rows;
    an operation that can raise returns a [result]. *)

From Stdlib Require Import ZArith Lia.
From stdpp Require Import base list list_numbers sorting gmap strings pretty.

Local Open Scope Z_scope.
Local Coercion Z.of_nat : nat >-> Z.

(** ** Exceptions *)

Inductive exn : Set :=
| IndexError
| ZeroDivisionError
| TypeError
| CvError.

Inductive result (A : Type) : Type :=
| Return (a : A)
| Raise (e : exn).
Arguments Return {A} a.
Arguments Raise {A} e.

#[global] Instance result_ret : MRet result := @Return.
#[global] Instance result_bind : MBind result := λ A B f m,
  match m with
  | Return a => f a
  | Raise e => Raise e
  end.

(** [for x in l: body], the loop state threaded through the iterations. *)
Fixpoint for_ {A S : Type} (l : list A) (body : A → S → result S) (s : S)
  : result S :=
  match l with
  | [] => Return s
  | x :: l' => s' ← body x s; for_ l' body s'
  end.

(** ** Python and NumPy primitives *)

Abbreviation ndarray := (list (list Z)).

Module py.

(** [range(lo, hi)] *)
Definition range (lo hi : Z) : list Z := seqZ lo (hi - lo).

(** The position an index [i] denotes in a sequence of length [n]:
    negative indices count from the end. *)
Definition norm_index (n : nat) (i : Z) : result nat :=
  if decide (0 ≤ i < n) then Return (Z.to_nat i)
  else if decide (- n ≤ i < 0) then Return (Z.to_nat (n + i))
  else Raise IndexError.

(** [l[i]] *)
Definition index {A} (l : list A) (i : Z) : result A :=
  k ← norm_index (length l) i;
  match l !! k with
  | Some x => Return x
  | None => Raise IndexError
  end.

(** A slice bound, clipped to the sequence as Python does. *)
Definition clip (n : nat) (i : Z) : Z :=
  if decide (i < 0) then Z.max 0 (n + i) else Z.min i n.

(** [l[lo:hi]] *)
Definition slice {A} (l : list A) (lo hi : Z) : list A :=
  let lo' := clip (length l) lo in
  let hi' := clip (length l) hi in
  take (Z.to_nat (hi' - lo')) (drop (Z.to_nat lo') l).

(** [a // b] *)
Definition floordiv (a b : Z) : result Z :=
  if decide (b = 0) then Raise ZeroDivisionError else Return (a `div` b).

(** [sum(l)] *)
Definition sum (l : list Z) : Z := foldr Z.add 0 l.

(** Truth value of an optional list: [None] and [[]] are false. *)
Definition truthy {A} (o : option (list A)) : bool :=
  match o with
  | Some (_ :: _) => true
  | _ => false
  end.

End py.

Module np.

(** [a.shape[0]] and [a.shape[1]] *)
Definition shape0 (a : ndarray) : Z := length a.
Definition shape1 (a : ndarray) : Z :=
  match a with
  | [] => 0
  | row :: _ => length row
  end.

(** Every row has [a.shape[1]] cells, as in every NumPy array. *)
Definition rectangular (a : ndarray) : Prop :=
  Forall (λ row : list Z, Z.of_nat (length row) = shape1 a) a.

(** The cell at row [i] and column [j], when both lie inside the array;
    no index wraps around here. *)
Definition cell (a : ndarray) (i j : Z) : option Z :=
  if decide (0 ≤ i ∧ 0 ≤ j) then
    row ← a !! Z.to_nat i; row !! Z.to_nat j
  else None.

(** [a[i][j]] *)
Definition getitem (a : ndarray) (i j : Z) : result Z :=
  row ← py.index a i; py.index row j.

(** [a[i, j] += v] *)
Definition iadd (a : ndarray) (i j v : Z) : result ndarray :=
  r ← py.norm_index (length a) i;
  match a !! r with
  | None => Raise IndexError
  | Some row =>
      c ← py.norm_index (length row) j;
      match row !! c with
      | None => Raise IndexError
      | Some old => Return (<[r := <[c := old + v]> row]> a)
      end
  end.

(** [a[r0:r1, c0:c1]] *)
Definition slice2 (a : ndarray) (r0 r1 c0 c1 : Z) : ndarray :=
  (λ row, py.slice row c0 c1) <$> py.slice a r0 r1.

(** [np.sum(a)] *)
Definition sum (a : ndarray) : Z := py.sum (py.sum <$> a).

(** [np.zeros_like(a)] *)
Definition zeros_like (a : ndarray) : ndarray :=
  (λ row : list Z, (λ _, 0) <$> row) <$> a.

(** [(a == v).astype(np.int8)] *)
Definition eq_int8 (a : ndarray) (v : Z) : ndarray :=
  (λ row : list Z, (λ x, if decide (x = v) then 1 else 0) <$> row) <$> a.

(** [np.fliplr(a)] *)
Definition fliplr (a : ndarray) : ndarray := reverse <$> a.

(** [np.full((n, m), v)] and [np.ones((n, m), dtype=np.uint8)] *)
Definition full (n m : nat) (v : Z) : ndarray := replicate n (replicate m v).
Definition ones (n m : nat) : ndarray := full n m 1.

End np.

(** ** MinutiaeScorer *)

(** The weights [0.0], [1.0] and [2.0] and the sums of them that the region
    search forms are integers far below 2^53, which binary64 represents
    exactly: a weight is modelled as the [Z] it denotes. *)

Definition kernel : list (Z * Z) :=
  [(-1, -1); (-1, 0); (-1, 1); (0, 1); (1, 1); (1, 0); (1, -1); (0, -1);
   (-1, -1)].

(** [sum(abs(values[k] - values[k + 1]) for k in range(len(values) - 1))] *)
Definition ring_differences (values : list Z) : result Z :=
  diffs ← mapM (λ k, a ← py.index values k;
                     b ← py.index values (k + 1);
                     Return (Z.abs (a - b)))
               (py.range 0 (length values - 1));
  Return (py.sum diffs).

Definition detect_minutiae (image : ndarray) (row col : Z) : result string :=
  v ← np.getitem image row col;
  if decide (v = 1) then
    values ← mapM (λ '(k, l), np.getitem image (row + l) (col + k)) kernel;
    total ← ring_differences values;
    let crossings := total `div` 2 in
    if decide (crossings = 1) then Return "termination"%string
    else if decide (crossings = 3) then Return "bifurcation"%string
    else Return "none"%string
  else Return "none"%string.

Definition calculate_minutiae_weights (image : ndarray) : result ndarray :=
  let binary_image := np.eq_int8 image 0 in
  let minutiae_weights_array := np.zeros_like image in
  for_ (py.range 1 (np.shape1 image - 1)) (λ col weights,
    for_ (py.range 1 (np.shape0 image - 1)) (λ row weights,
      minutiae ← detect_minutiae binary_image row col;
      if decide (minutiae = "bifurcation"%string) then
        np.iadd weights row col 1
      else if decide (minutiae = "termination"%string) then
        np.iadd weights row col 2
      else Return weights) weights) minutiae_weights_array.

(** ** RegionSelector *)

(** [x <= best], where [None] stands for [float("inf")]. *)
Definition le_weight (x : Z) (best : option Z) : bool :=
  match best with
  | None => true
  | Some b => bool_decide (x ≤ b)
  end.

(** The body of the two nested loops of [__get_best_region]. *)
Definition visit_window (minutiae_weights_image : ndarray) (block_size : Z)
    (mask : ndarray) (shape_block col : Z)
    (st : option (list Z) * option Z) (row : Z)
  : option (list Z) * option Z :=
  let '(best_region, block_minutiaes_weight) := st in
  let mask_slice :=
    np.slice2 mask (col * block_size) (col * block_size + shape_block)
                   (row * block_size) (row * block_size + shape_block) in
  let mask_flag := np.sum mask_slice in
  if decide (mask_flag = shape_block * shape_block) then
    let number_vision_problems :=
      np.sum (np.slice2 minutiae_weights_image
                (col * block_size) (col * block_size + shape_block)
                (row * block_size) (row * block_size + shape_block)) in
    if le_weight number_vision_problems block_minutiaes_weight then
      (Some [col * block_size; col * block_size + shape_block;
             row * block_size; row * block_size + shape_block],
       Some number_vision_problems)
    else (best_region, block_minutiaes_weight)
  else (best_region, block_minutiaes_weight).

Definition get_best_region (thin_image minutiae_weights_image : ndarray)
    (block_size : Z) (mask : ndarray) : result (option (list Z)) :=
  let best_region : option (list Z) := None in
  let block_minutiaes_weight : option Z := None in
  let rows := np.shape0 thin_image in
  let cols := np.shape1 thin_image in
  let shape_block := block_size * 8 in
  blocks ← py.floordiv shape_block block_size;
  let window := blocks - 1 in
  let '(best_region, _) :=
    foldl (λ st col,
             foldl (visit_window minutiae_weights_image block_size mask
                      shape_block col)
                   st (py.range 1 (rows - window)))
          (best_region, block_minutiaes_weight)
          (py.range 1 (cols - window)) in
  if py.truthy best_region then Return best_region else Return None.

(** ** OpenCV primitives

    [cv2] is an external library; its functions are modelled after their
    documented behaviour on 8-bit single-channel images. *)

Abbreviation canvas := (list (list (Z * Z * Z))).

Module cv2.

(** The offsets, relative to the anchor at the kernel's centre, of the
    non-zero cells of a structuring element. *)
Definition offsets (kernel : ndarray) : list (Z * Z) :=
  let anchor_i := np.shape0 kernel `div` 2 in
  let anchor_j := np.shape1 kernel `div` 2 in
  mjoin (imap (λ ki krow,
           mjoin (imap (λ kj (kv : Z),
                    if decide (kv = 0) then []
                    else [(Z.of_nat ki - anchor_i, Z.of_nat kj - anchor_j)])
                  krow))
         kernel).

(** [cv2.erode(src, kernel)]: the minimum over the structuring element,
    one iteration; with the default border a sample outside the image
    does not lower the minimum.  An empty source is an error. *)
Definition erode (src kernel : ndarray) : result ndarray :=
  if decide (np.shape0 src = 0 ∨ np.shape1 src = 0) then Raise CvError
  else
    Return (imap (λ i row,
              imap (λ j (_ : Z),
                foldr (λ '(di, dj) acc,
                         match np.cell src (Z.of_nat i + di) (Z.of_nat j + dj) with
                         | Some v => Z.min v acc
                         | None => acc
                         end)
                      255 (offsets kernel))
                row)
            src).

(** [cv2.threshold(src, thresh, maxval, cv2.THRESH_BINARY)[1]] *)
Definition threshold_binary (src : ndarray) (thresh maxval : Z) : ndarray :=
  (λ row : list Z, (λ v, if decide (thresh < v) then maxval else 0) <$> row)
    <$> src.

(** The three-channel image whose channels all equal [src]. *)
Definition gray_to_rgb (src : ndarray) : canvas :=
  (λ row : list Z, (λ v, (v, v, v)) <$> row) <$> src.

(** [cv2.cvtColor(src, cv2.COLOR_GRAY2RGB)]; an empty source is an
    error. *)
Definition cvtColor_GRAY2RGB (src : ndarray) : result canvas :=
  if decide (np.shape0 src = 0 ∨ np.shape1 src = 0) then Raise CvError
  else Return (gray_to_rgb src).

End cv2.

(** ** RidgeCounter *)

Definition count_diagonal_lines (image : ndarray) : result Z :=
  '(_, counter) ←
    for_ (py.range 0 (np.shape0 image))
         (λ i '(is_white, counter),
            v ← np.getitem image i i;
            let '(is_white, counter) :=
              if bool_decide (v = 0) && is_white then (false, counter + 1)
              else (is_white, counter) in
            v' ← np.getitem image i i;
            let is_white := if decide (v' = 255) then true else is_white in
            Return (is_white, counter))
         (true, 0);
  Return counter.

Definition count_lines (image : ndarray) : result (Z * string) :=
  let kernel := np.ones 3 3 in
  eroded_image ← cv2.erode image kernel;
  let binary_image := cv2.threshold_binary eroded_image 127 255 in
  main_diagonal ← count_diagonal_lines binary_image;
  secondary_diagonal ← count_diagonal_lines (np.fliplr binary_image);
  Return (if decide (main_diagonal ≤ secondary_diagonal)
          then (secondary_diagonal, "secondary_diagonal"%string)
          else (main_diagonal, "main_diagonal"%string)).

(** ** RegionAnnotator

    Arrays are objects: the annotator copies and converts its input and then
    draws on the converted image in place.  The store maps the address of
    each live array to its contents. *)

Inductive mat : Type :=
| Gray (a : ndarray)
| Color (a : canvas).

Abbreviation loc := positive (only parsing).
Abbreviation heap := (gmap positive mat) (only parsing).

(** A computation on the store that may raise; the store survives the
    exception. *)
Definition M (A : Type) : Type := heap → result A * heap.

#[global] Instance M_ret : MRet M := λ A a h, (Return a, h).
#[global] Instance M_bind : MBind M := λ A B f m h,
  match m h with
  | (Return a, h') => f a h'
  | (Raise e, h') => (Raise e, h')
  end.

(** The result of a pure computation, in the store monad. *)
Definition lift {A} (r : result A) : M A := λ h, (r, h).

(** A new array object. *)
Definition alloc (v : mat) : M loc := λ h,
  let l := fresh (dom h) in (Return l, <[l := v]> h).

(** The contents of a single-channel array. *)
Definition read_gray (l : loc) : M ndarray := λ h,
  (match h !! l with
   | Some (Gray a) => Return a
   | _ => Raise TypeError
   end, h).

(** An in-place update of a three-channel array. *)
Definition draw (l : loc) (f : canvas → canvas) : M unit := λ h,
  match h !! l with
  | Some (Color c) => (Return (), <[l := Color (f c)]> h)
  | _ => (Raise TypeError, h)
  end.

Section annotator.

(** The rasterisers of OpenCV, each a function of the canvas it draws on:
    [cv2.line(img, pt1, pt2, color, thickness)],
    [cv2.putText(img, text, org, cv2.FONT_HERSHEY_TRIPLEX, 0.5, color,
    thickness)] and [cv2.rectangle(img, pt1, pt2, color, thickness)]. *)
Variable cv2_line : canvas → Z * Z → Z * Z → Z * Z * Z → Z → canvas.
Variable cv2_putText : canvas → string → Z * Z → Z * Z * Z → Z → canvas.
Variable cv2_rectangle : canvas → Z * Z → Z * Z → Z * Z * Z → Z → canvas.

Definition draw_diagonal (image : loc)
    (start_i start_j end_i end_j line_count block_size text_y text_x : Z)
    (color : Z * Z * Z) : M unit :=
  _ ← draw image (λ c, cv2_line c (start_j, start_i) (end_j, end_i)
                                (0, 0, 255) 1);
  _ ← draw image (λ c, cv2_putText c (" " +:+ pretty line_count)
                                   (text_y, text_x - block_size) color 1);
  draw image (λ c, cv2_putText c "ridges" (text_y, text_x) color 1).

Definition draw_ridges_count_on_region (region : option (list Z))
    (input_image thin_image : loc) (block_size : Z) : M loc :=
  source ← read_gray input_image;
  copy ← alloc (Gray source);
  copied ← read_gray copy;
  converted ← lift (cv2.cvtColor_GRAY2RGB copied);
  output_image ← alloc (Color converted);
  match region with
  | None => mret output_image
  | Some region =>
      thin ← read_gray thin_image;
      r0 ← lift (py.index region 0);
      r1 ← lift (py.index region 1);
      r2 ← lift (py.index region 2);
      r3 ← lift (py.index region 3);
      region_copy ← alloc (Gray (np.slice2 thin r0 r1 r2 r3));
      crop ← read_gray region_copy;
      '(line_count, line_type) ← lift (count_lines crop);
      let text_y := (r3 - r2) `div` 2 + r2 in
      _ ← (if decide (line_type = "main_diagonal"%string) then
             let text_x := (r1 - r0) `div` 3 + r0 in
             draw_diagonal output_image r0 r2 r1 r3 line_count block_size
                           text_y text_x (0, 255, 255)
           else if decide (line_type = "secondary_diagonal"%string) then
             let text_x := (2 * (r1 - r0)) `div` 3 + r0 in
             draw_diagonal output_image r0 r3 r1 r2 line_count block_size
                           text_y text_x (0, 255, 255)
           else mret ());
      _ ← draw output_image (λ c, cv2_rectangle c (r2, r0) (r3, r1)
                                                (0, 0, 255) 1);
      mret output_image
  end.

End annotator.

(** ** The recognizer object and its finishing steps

    The fields of [self] are references into the store.  The steps are
    followed on fields that hold single-channel arrays; nothing is stated
    below for a field that holds [None] or another object. *)

Record recognizer : Set := {
  self_image : positive;
  self_gabor_img : positive;
  self_thin_image : positive;
  self_minutiae_weights_image : positive;
  self_mask : positive
}.

Section pipeline.

(** [skimage.morphology.skeletonize], which returns a boolean array. *)
Variable ski_skeletonize : ndarray → list (list bool).
Variable cv2_line : canvas → Z * Z → Z * Z → Z * Z * Z → Z → canvas.
Variable cv2_putText : canvas → string → Z * Z → Z * Z * Z → Z → canvas.
Variable cv2_rectangle : canvas → Z * Z → Z * Z → Z * Z * Z → Z → canvas.

(** [__skeletonize]: [binary_image] is 1 where [img] is 0 and 0 elsewhere;
    the output is [(1 - skeleton) * 255.0] as 8-bit integers. *)
Definition skeletonize (img : ndarray) : ndarray :=
  let binary_image := np.eq_int8 img 0 in
  let skeleton := ski_skeletonize binary_image in
  (λ row : list bool,
     (λ b : bool, (1 - (if b then 1 else 0)) * 255) <$> row) <$> skeleton.

Definition fifth_step (self : recognizer) : M (positive * recognizer) :=
  gabor_img ← read_gray (self_gabor_img self);
  thin_image ← alloc (Gray (skeletonize gabor_img));
  mret (thin_image,
        {| self_image := self_image self;
           self_gabor_img := self_gabor_img self;
           self_thin_image := thin_image;
           self_minutiae_weights_image := self_minutiae_weights_image self;
           self_mask := self_mask self |}).

Definition sixth_step (self : recognizer) : M (positive * recognizer) :=
  thin_image ← read_gray (self_thin_image self);
  weights ← lift (calculate_minutiae_weights thin_image);
  minutiae_weights_image ← alloc (Gray weights);
  mret (minutiae_weights_image,
        {| self_image := self_image self;
           self_gabor_img := self_gabor_img self;
           self_thin_image := self_thin_image self;
           self_minutiae_weights_image := minutiae_weights_image;
           self_mask := self_mask self |}).

Definition seventh_step (self : recognizer) : M positive :=
  let block_size := 15 in
  thin_image ← read_gray (self_thin_image self);
  minutiae_weights_image ← read_gray (self_minutiae_weights_image self);
  mask ← read_gray (self_mask self);
  best_region ← lift (get_best_region thin_image minutiae_weights_image
                                      block_size mask);
  draw_ridges_count_on_region cv2_line cv2_putText cv2_rectangle
    best_region (self_image self) (self_thin_image self) block_size.

Definition run_second_phase (self : recognizer) : M (positive * recognizer) :=
  '(_, self) ← fifth_step self;
  '(_, self) ← sixth_step self;
  result ← seventh_step self;
  mret (result, self).

End pipeline.

(** ** Specification-side notions *)

(** The strict 0/1 "ridge present" value of a pixel of the skeleton: 1 where
    the intensity is 0, and 0 elsewhere. *)
Definition ridge (image : ndarray) (r c : Z) : Z :=
  match np.cell image r c with
  | Some v => if decide (v = 0) then 1 else 0
  | None => 0
  end.

(** The ring around [(r, c)] as the specification words it: the eight
    neighbours clockwise from the upper-left one, which is repeated at the
    end. *)
Definition ring (image : ndarray) (r c : Z) : list Z :=
  [ridge image (r - 1) (c - 1); ridge image (r - 1) c;
   ridge image (r - 1) (c + 1); ridge image r (c + 1);
   ridge image (r + 1) (c + 1); ridge image (r + 1) c;
   ridge image (r + 1) (c - 1); ridge image r (c - 1);
   ridge image (r - 1) (c - 1)].

Fixpoint consecutive_differences (samples : list Z) : Z :=
  match samples with
  | a :: (b :: _) as rest => Z.abs (a - b) + consecutive_differences rest
  | _ => 0
  end.

Definition crossing_number (image : ndarray) (r c : Z) : Z :=
  consecutive_differences (ring image r c) `div` 2.

Definition interior (image : ndarray) (r c : Z) : Prop :=
  1 ≤ r < np.shape0 image - 1 ∧ 1 ≤ c < np.shape1 image - 1.

#[global] Instance interior_dec image r c : Decision (interior image r c).
Proof. unfold interior. apply _. Defined.

(** The weight the specification assigns to the cell [(r, c)]. *)
Definition expected_weight (image : ndarray) (r c : Z) : Z :=
  if decide (interior image r c ∧ ridge image r c = 1) then
    if decide (crossing_number image r c = 1) then 2
    else if decide (crossing_number image r c = 3) then 1
    else 0
  else 0.

(** The classification [__detect_minutiae] returns at an interior pixel. *)
Definition classification (image : ndarray) (r c : Z) : string :=
  if decide (ridge image r c = 1) then
    if decide (crossing_number image r c = 1) then "termination"
    else if decide (crossing_number image r c = 3) then "bifurcation"
    else "none"
  else "none".

(** The block indices [(col, row)] the two loops of [__get_best_region]
    run over, for a skeleton of the given shape; 7 is the window span,
    [shape_block // block_size - 1]. *)
Definition candidate (thin_image : ndarray) (x : Z * Z) : Prop :=
  1 ≤ x.1 < np.shape1 thin_image - 7 ∧ 1 ≤ x.2 < np.shape0 thin_image - 7.

(** The same block indices in the order of the scan: the column index in the
    outer loop, the row index in the inner one. *)
Definition scan_order (thin_image : ndarray) : list (Z * Z) :=
  col ← py.range 1 (np.shape1 thin_image - 7);
  row ← py.range 1 (np.shape0 thin_image - 7);
  [(col, row)].

Definition scanned_before (x y : Z * Z) : Prop :=
  x.1 < y.1 ∨ (x.1 = y.1 ∧ x.2 < y.2).

(** The sum of an array over the window of a block index. *)
Definition window_sum (a : ndarray) (block_size : Z) (x : Z * Z) : Z :=
  np.sum (np.slice2 a (x.1 * block_size) (x.1 * block_size + block_size * 8)
                      (x.2 * block_size) (x.2 * block_size + block_size * 8)).

(** A window is accepted when its mask footprint sums to the square of its
    side. *)
Definition accepted (mask : ndarray) (block_size : Z) (x : Z * Z) : Prop :=
  window_sum mask block_size x = block_size * 8 * (block_size * 8).

#[global] Instance accepted_dec mask block_size x :
  Decision (accepted mask block_size x).
Proof. unfold accepted. apply _. Defined.

Definition region_of (block_size : Z) (x : Z * Z) : list Z :=
  [x.1 * block_size; x.1 * block_size + block_size * 8;
   x.2 * block_size; x.2 * block_size + block_size * 8].

(** Every value of the mask is 0 or 1. *)
Definition binary_mask (mask : ndarray) : Prop :=
  Forall (Forall (λ v : Z, v = 0 ∨ v = 1)) mask.

(** [m] keeps the property [I] of the store, whether it returns or raises. *)
Definition preserves {A} (I : gmap positive mat → Prop) (m : M A) : Prop :=
  ∀ h, I h → I (m h).2.

(** Every value [m] returns satisfies [P]. *)
Definition returns {A} (m : M A) (P : A → Prop) : Prop :=
  ∀ h a, (m h).1 = Return a → P a.

(** The store [h] still holds every array of [h0] unchanged, and a
    three-channel array at [out]. *)
Definition annotating (h0 : gmap positive mat) (out : positive)
    (h : gmap positive mat) : Prop :=
  h0 ⊆ h ∧ ∃ c, h !! out = Some (Color c).

(** [m] returns from every store with [I], and keeps [I]. *)
Definition succeeds {A} (I : gmap positive mat → Prop) (m : M A) : Prop :=
  ∀ h, I h → ∃ a, fst (m h) = Return a ∧ I (snd (m h)).

(** The block indices as the specification bounds them: from 1 to the
    number of blocks along the axis less the window span. *)
Definition claimed_candidate (thin_image : ndarray) (block_size : Z)
    (x : Z * Z) : Prop :=
  1 ≤ x.1 ≤ np.shape1 thin_image `div` block_size - 7
  ∧ 1 ≤ x.2 ≤ np.shape0 thin_image `div` block_size - 7.

(** The number of ridge pixels among the eight neighbours of [(r, c)]. *)
Definition ridge_neighbours (image : ndarray) (r c : Z) : Z :=
  ridge image (r - 1) (c - 1) + ridge image (r - 1) c
  + ridge image (r - 1) (c + 1) + ridge image r (c + 1)
  + ridge image (r + 1) (c + 1) + ridge image (r + 1) c
  + ridge image (r + 1) (c - 1) + ridge image r (c - 1).

(** Every value of the mask is 0 or 255, as in an OpenCV mask. *)
Definition opencv_mask (mask : ndarray) : Prop :=
  Forall (Forall (λ v : Z, v = 0 ∨ v = 255)) mask.

(** The cells [image[i][i]] the diagonal scan reads, in order. *)
Definition diagonal (image : ndarray) : list Z :=
  (λ i, default 0 (np.cell image i i)) <$> py.range 0 (np.shape0 image).

(** The number of ridge cells (0) of [cells] that directly follow a
    background cell (255), [previous] being the cell before the first. *)
Fixpoint run_starts (previous : Z) (cells : list Z) : Z :=
  match cells with
  | [] => 0
  | v :: rest =>
      (if decide (v = 0 ∧ previous = 255) then 1 else 0) + run_starts v rest
  end.

(** Whether a pixel of at most 127 lies in the 3 x 3 neighbourhood of
    [(i, j)], inside the crop. *)
Definition dark_nearby (crop : ndarray) (i j : Z) : bool :=
  existsb (λ '(di, dj),
             match np.cell crop (i + di) (j + dj) with
             | Some v => bool_decide (v ≤ 127)
             | None => false
             end)
          [(-1, -1); (-1, 0); (-1, 1); (0, -1); (0, 0); (0, 1);
           (1, -1); (1, 0); (1, 1)].

(** The crop after the 3 x 3 erosion and the threshold at 127, cell by
    cell: 0 where the 3 x 3 neighbourhood inside the crop holds a value of
    at most 127, and 255 elsewhere. *)
Definition rebinarized (crop : ndarray) (i j : Z) : Z :=
  if dark_nearby crop i j then 0 else 255.

(** The ridge count along the main diagonal of the eroded and re-binarised
    crop, the cells [(i, i)]: a ridge cell counts when it is the first cell
    or directly follows a background cell. *)
Definition main_diagonal_count (crop : ndarray) : Z :=
  run_starts 255 ((λ i, rebinarized crop i i)
                    <$> py.range 0 (np.shape0 crop)).

(** The same count along the secondary diagonal, the cells
    [(i, cols - 1 - i)]. *)
Definition secondary_diagonal_count (crop : ndarray) : Z :=
  run_starts 255 ((λ i, rebinarized crop i (np.shape1 crop - 1 - i))
                    <$> py.range 0 (np.shape0 crop)).

Section annotation.

Variable cv2_line : canvas → Z * Z → Z * Z → Z * Z * Z → Z → canvas.
Variable cv2_putText : canvas → string → Z * Z → Z * Z * Z → Z → canvas.
Variable cv2_rectangle : canvas → Z * Z → Z * Z → Z * Z * Z → Z → canvas.

(** The annotation as the specification words it, on the converted image
    and for the region [a, b) x [c, d): a line between the two ends of the
    chosen diagonal, from the upper left to the lower right for the main
    one and from the upper right to the lower left for the secondary one;
    the count and the label "ridges" as two lines of text, a block apart,
    a third or two thirds down the region; and the outline of the region.
    A point is (x, y), the column first. *)
Definition annotated (converted : canvas) (a b c d : Z)
    (line_count : Z) (line_type : string) (block_size : Z) : canvas :=
  let main := bool_decide (line_type = "main_diagonal"%string) in
  let text_y := (d - c) `div` 2 + c in
  let text_x :=
    (if main then (b - a) `div` 3 else (2 * (b - a)) `div` 3) + a in
  let with_line :=
    if main then cv2_line converted (c, a) (d, b) (0, 0, 255) 1
    else cv2_line converted (d, a) (c, b) (0, 0, 255) 1 in
  let with_count :=
    cv2_putText with_line (" " +:+ pretty line_count)
                (text_y, text_x - block_size) (0, 255, 255) 1 in
  let with_label :=
    cv2_putText with_count "ridges" (text_y, text_x) (0, 255, 255) 1 in
  cv2_rectangle with_label (c, a) (d, b) (0, 0, 255) 1.

End annotation.

(** ** Example inputs *)

(** A skeleton with a bifurcation at row 1, column 2. *)
Definition skeleton_fork : ndarray :=
  [[255; 0; 255; 0; 255];
   [255; 255; 0; 255; 255];
   [255; 255; 0; 255; 255];
   [255; 255; 0; 255; 255]].

(** Weights whose only non-zero cell lies in the first row of blocks. *)
Definition weights_top : ndarray :=
  <[1%nat := <[5%nat := 2]> (replicate 10 0)]> (np.full 10 10 0).

(** A store holding one small grayscale image. *)
Definition store_one : gmap positive mat :=
  {[ 1%positive := Gray [[1; 2]; [3; 4]] ]}.

(** A skeleton with a ridge ending at row 1, column 1. *)
Definition skeleton_end : ndarray :=
  [[255; 255; 255];
   [255; 0; 255];
   [255; 0; 255]].

(** A 0/1 image with a ridge pixel in its last row. *)
Definition bits_last_row : ndarray :=
  [[0; 0; 0];
   [0; 1; 0]].

(** A crop with one ridge pixel. *)
Definition crop_dot : ndarray :=
  [[255; 0];
   [255; 255]].

(** A recognizer whose five fields are the arrays 1 to 5 of the store. *)
Definition self_example : recognizer :=
  {| self_image := 1; self_gabor_img := 2; self_thin_image := 3;
     self_minutiae_weights_image := 4; self_mask := 5 |}.

Definition store_example : gmap positive mat :=
  {[ 1%positive := Gray [[1; 2]; [3; 4]];
     2%positive := Gray [[0; 255]; [255; 0]];
     3%positive := Gray [[0; 255]; [255; 0]];
     4%positive := Gray [[0; 0]; [0; 0]];
     5%positive := Gray [[1; 1]; [1; 1]] ]}.

(** A thinning that keeps every pixel. *)
Definition thinning_example (a : ndarray) : list (list bool) :=
  (λ row : list Z, (λ v : Z, bool_decide (v = 1)) <$> row) <$> a.

(** A skeleton with a single ridge pixel, in its upper-left corner. *)
Definition skeleton_corner : ndarray :=
  [[0; 255; 255; 255];
   [255; 255; 255; 255];
   [255; 255; 255; 255];
   [255; 255; 255; 255]].

(** A store holding an image and the skeleton with a ridge pixel in its
    corner. *)
Definition store_region : gmap positive mat :=
  {[ 1%positive := Gray (np.full 4 4 7);
     2%positive := Gray skeleton_corner ]}.

(** Rasterisers for the examples: each paints the pixels at the points it
    is given, a point being (x, y). *)
Definition paint (c : canvas) (p : Z * Z) (color : Z * Z * Z) : canvas :=
  alter (λ row, <[Z.to_nat p.1 := color]> row) (Z.to_nat p.2) c.

Definition paint_line (c : canvas) (p q : Z * Z) (color : Z * Z * Z)
    (thickness : Z) : canvas :=
  paint (paint c p color) q color.

Definition paint_text (c : canvas) (text : string) (p : Z * Z)
    (color : Z * Z * Z) (thickness : Z) : canvas :=
  paint c p color.

(** * Properties *)

(** ** Loops *)

Lemma for_app {A S} (l1 l2 : list A) (body : A → S → result S) (s : S) :
  for_ (l1 ++ l2) body s = s' ← for_ l1 body s; for_ l2 body s'.
Proof.
  revert s. induction l1 as [|x l1 IH]; intros s; simpl; [done|].
  destruct (body x s) as [s'|e]; simpl; [apply IH|done].
Qed.

(** A loop whose body keeps an invariant [I], indexed by the iterations
    done so far, returns in a state where [I] holds of all of them. *)
Lemma for_invariant {A S} (I : list A → S → Prop) (body : A → S → result S)
    (l : list A) (s : S) :
  I [] s →
  (∀ seen x rest s, l = seen ++ x :: rest → I seen s →
     ∃ s', body x s = Return s' ∧ I (seen ++ [x]) s') →
  ∃ s', for_ l body s = Return s' ∧ I l s'.
Proof.
  intros Hinit Hstep.
  cut (∀ rest seen s, l = seen ++ rest → I seen s →
         ∃ s', for_ rest body s = Return s' ∧ I l s').
  { intros Hgen. apply (Hgen l [] s); done. }
  induction rest as [|x rest IH]; intros seen s0 Hl Hs0; simpl.
  - exists s0. rewrite app_nil_r in Hl. by subst.
  - destruct (Hstep seen x rest s0 Hl Hs0) as (s1 & -> & Hs1). simpl.
    apply (IH (seen ++ [x])); [|done]. by rewrite <- app_assoc.
Qed.

(** ** Indexing *)

Lemma norm_index_nonneg (n : nat) (i : Z) :
  0 ≤ i →
  py.norm_index n i
  = if decide (i < n) then Return (Z.to_nat i) else Raise IndexError.
Proof.
  intros Hi. unfold py.norm_index.
  repeat case_decide; try done; lia.
Qed.

Lemma index_nonneg {A} (l : list A) (i : Z) :
  0 ≤ i →
  py.index l i = from_option Return (Raise IndexError) (l !! Z.to_nat i).
Proof.
  intros Hi. unfold py.index. rewrite norm_index_nonneg by done.
  case_decide as Hlt; simpl.
  - by destruct (l !! Z.to_nat i).
  - rewrite lookup_ge_None_2; [done|lia].
Qed.

Lemma getitem_cell (a : ndarray) (i j : Z) :
  0 ≤ i → 0 ≤ j →
  np.getitem a i j = from_option Return (Raise IndexError) (np.cell a i j).
Proof.
  intros Hi Hj. unfold np.getitem, np.cell.
  rewrite index_nonneg by done. rewrite decide_True by done.
  destruct (a !! Z.to_nat i) as [row|]; simpl; [|reflexivity].
  by rewrite index_nonneg.
Qed.

Lemma cell_Some (a : ndarray) (i j v : Z) :
  np.cell a i j = Some v ↔
  0 ≤ i ∧ 0 ≤ j ∧ ∃ row, a !! Z.to_nat i = Some row ∧ row !! Z.to_nat j = Some v.
Proof.
  unfold np.cell. case_decide as H.
  - destruct (a !! Z.to_nat i) as [row|]; simpl; naive_solver.
  - naive_solver.
Qed.

Lemma cell_in_bounds (a : ndarray) (i j : Z) :
  np.rectangular a → 0 ≤ i < np.shape0 a → 0 ≤ j < np.shape1 a →
  is_Some (np.cell a i j).
Proof.
  intros Hrect Hi Hj. unfold np.shape0 in Hi.
  destruct (lookup_lt_is_Some_2 a (Z.to_nat i)) as [row Hrow]; [lia|].
  assert (Z.of_nat (length row) = np.shape1 a) as Hlen.
  { unfold np.rectangular in Hrect. rewrite Forall_forall in Hrect.
    apply Hrect. by eapply list_elem_of_lookup_2. }
  destruct (lookup_lt_is_Some_2 row (Z.to_nat j)) as [v Hv]; [lia|].
  exists v. apply cell_Some. naive_solver.
Qed.

Lemma cell_bounds (a : ndarray) (i j v : Z) :
  np.rectangular a → np.cell a i j = Some v →
  0 ≤ i < np.shape0 a ∧ 0 ≤ j < np.shape1 a.
Proof.
  intros Hrect (Hi & Hj & row & Hrow & Hv)%cell_Some.
  assert (Z.of_nat (length row) = np.shape1 a) as Hlen.
  { unfold np.rectangular in Hrect. rewrite Forall_forall in Hrect.
    apply Hrect. by eapply list_elem_of_lookup_2. }
  apply lookup_lt_Some in Hrow, Hv. unfold np.shape0. lia.
Qed.

Lemma cell_fmap (f : Z → Z) (a : ndarray) (i j : Z) :
  np.cell ((λ row : list Z, f <$> row) <$> a) i j = f <$> np.cell a i j.
Proof.
  unfold np.cell. case_decide; [|done].
  rewrite list_lookup_fmap. destruct (a !! Z.to_nat i) as [row|]; simpl; [|done].
  by rewrite list_lookup_fmap.
Qed.

(** ** Crossing numbers *)

Lemma mapM_Return {A B} (f : A → result B) (g : A → B) (l : list A) :
  (∀ x, x ∈ l → f x = Return (g x)) → mapM f l = Return (g <$> l).
Proof.
  induction l as [|x l IH]; intros Hf; [done|].
  cbn [mapM]. rewrite Hf by left. simpl.
  rewrite IH; [done|]. intros y Hy. apply Hf. by right.
Qed.

Lemma sum_differences (l : list Z) :
  py.sum ((λ k : nat, Z.abs (l !!! k - l !!! S k)) <$> seq 0 (length l - 1))
  = consecutive_differences l.
Proof.
  induction l as [|a [|b l] IH]; [done..|].
  replace (length (a :: b :: l) - 1)%nat with (S (length (b :: l) - 1))
    by (simpl; lia).
  rewrite <- cons_seq, <- fmap_S_seq, fmap_cons, <- list_fmap_compose.
  change (consecutive_differences (a :: b :: l))
    with (Z.abs (a - b) + consecutive_differences (b :: l)).
  rewrite <- IH. reflexivity.
Qed.

Lemma ring_differences_spec (values : list Z) :
  ring_differences values = Return (consecutive_differences values).
Proof.
  unfold ring_differences, py.range.
  rewrite (mapM_Return _ (λ k, Z.abs (values !!! Z.to_nat k
                                       - values !!! S (Z.to_nat k)))).
  - simpl. f_equal. rewrite <- sum_differences. f_equal.
    unfold seqZ. rewrite <- list_fmap_compose.
    replace (Z.to_nat (length values - 1 - 0)) with (length values - 1)%nat
      by lia.
    apply list_fmap_ext. intros _ k _. simpl. by rewrite Z.add_0_r, Nat2Z.id.
  - intros k [Hk0 Hk]%elem_of_seqZ.
    rewrite !index_nonneg by lia.
    destruct (lookup_lt_is_Some_2 values (Z.to_nat k)) as [a Ha]; [lia|].
    destruct (lookup_lt_is_Some_2 values (S (Z.to_nat k))) as [b Hb]; [lia|].
    replace (Z.to_nat (k + 1)) with (S (Z.to_nat k)) by lia.
    rewrite Ha, Hb. simpl.
    by rewrite (list_lookup_total_correct _ _ _ Ha),
               (list_lookup_total_correct _ _ _ Hb).
Qed.

Lemma consecutive_differences_reverse (l : list Z) :
  consecutive_differences (reverse l) = consecutive_differences l.
Proof.
  assert (∀ (l : list Z) x y,
            consecutive_differences (l ++ [x; y])
            = consecutive_differences (l ++ [x]) + Z.abs (x - y)) as Hsnoc.
  { clear. induction l as [|a [|b l] IH]; intros x y.
    - simpl. lia.
    - simpl. lia.
    - specialize (IH x y). simpl in *. lia. }
  induction l as [|a [|b l] IH]; [done..|].
  rewrite !reverse_cons, <- app_assoc in *. simpl app.
  rewrite Hsnoc, IH. simpl. lia.
Qed.

Lemma shape_eq_int8 (image : ndarray) (v : Z) :
  np.shape0 (np.eq_int8 image v) = np.shape0 image
  ∧ np.shape1 (np.eq_int8 image v) = np.shape1 image.
Proof.
  unfold np.shape0, np.shape1, np.eq_int8. rewrite length_fmap.
  destruct image; simpl; [done|]. by rewrite length_fmap.
Qed.

Lemma getitem_binary (image : ndarray) (i j : Z) :
  np.rectangular image →
  0 ≤ i < np.shape0 image → 0 ≤ j < np.shape1 image →
  np.getitem (np.eq_int8 image 0) i j = Return (ridge image i j).
Proof.
  intros Hrect Hi Hj. rewrite getitem_cell by lia.
  unfold np.eq_int8, ridge. rewrite cell_fmap.
  by destruct (cell_in_bounds image i j Hrect Hi Hj) as [v ->].
Qed.

Lemma detect_minutiae_interior (image : ndarray) (r c : Z) :
  np.rectangular image → interior image r c →
  detect_minutiae (np.eq_int8 image 0) r c = Return (classification image r c).
Proof.
  intros Hrect [Hr Hc]. unfold detect_minutiae, classification.
  rewrite getitem_binary by (done || lia). simpl.
  destruct (decide (ridge image r c = 1)) as [_|]; [|done].
  unfold kernel. cbn [mapM].
  rewrite !getitem_binary by (done || lia). cbn [mbind mret result_bind result_ret].
  rewrite ring_differences_spec. cbn [mbind mret result_bind result_ret].
  unfold crossing_number.
  rewrite <- (consecutive_differences_reverse (ring image r c)).
  unfold ring. rewrite !Z.add_0_r.
  replace (r + -1) with (r - 1) by lia. replace (c + -1) with (c - 1) by lia.
  unfold reverse. cbn [rev_append]. by repeat case_decide.
Qed.

Lemma iadd_spec (w : ndarray) (r c v old : Z) :
  np.cell w r c = Some old →
  ∃ w', np.iadd w r c v = Return w'
        ∧ length <$> w' = length <$> w
        ∧ ∀ i j, np.cell w' i j
                 = if decide (i = r ∧ j = c) then Some (old + v)
                   else np.cell w i j.
Proof.
  intros (Hr & Hc & row & Hrow & Hold)%cell_Some.
  pose proof (lookup_lt_Some _ _ _ Hrow) as Hlr.
  pose proof (lookup_lt_Some _ _ _ Hold) as Hlc.
  exists (<[Z.to_nat r := <[Z.to_nat c := old + v]> row]> w).
  split; [|split].
  - unfold np.iadd. rewrite norm_index_nonneg, decide_True by lia.
    cbn [mbind result_bind]. rewrite Hrow.
    rewrite norm_index_nonneg, decide_True by lia.
    cbn [mbind result_bind]. by rewrite Hold.
  - rewrite list_fmap_insert, length_insert.
    apply list_insert_id. by rewrite list_lookup_fmap, Hrow.
  - intros i j. unfold np.cell.
    destruct (decide (0 ≤ i ∧ 0 ≤ j)) as [[Hi Hj]|Hij].
    + destruct (decide (Z.to_nat i = Z.to_nat r)) as [Hir|Hir].
      * rewrite Hir, list_lookup_insert_eq by done.
        rewrite Hrow. simpl.
        destruct (decide (Z.to_nat j = Z.to_nat c)) as [Hjc|Hjc].
        -- rewrite Hjc, list_lookup_insert_eq by done.
           rewrite decide_True; [done|lia].
        -- rewrite list_lookup_insert_ne by done.
           rewrite decide_False; [done|lia].
      * rewrite list_lookup_insert_ne by done.
        rewrite decide_False; [done|lia].
    + rewrite decide_False; [done|lia].
Qed.

(** ** The weight image *)

Lemma shape_of_row_lengths (a b : ndarray) :
  length <$> a = length <$> b →
  np.shape0 a = np.shape0 b ∧ np.shape1 a = np.shape1 b
  ∧ (np.rectangular b → np.rectangular a).
Proof.
  intros Hlen. assert (np.shape1 a = np.shape1 b) as H1.
  { destruct a, b; simplify_eq/=; congruence. }
  split; [|split; [done|]].
  - unfold np.shape0. apply (f_equal length) in Hlen.
    rewrite !length_fmap in Hlen. lia.
  - unfold np.rectangular. rewrite H1.
    intros Hb.
    apply (Forall_fmap length (λ n : nat, Z.of_nat n = np.shape1 b)).
    rewrite Hlen. by apply Forall_fmap.
Qed.

Lemma range_elem (lo hi x : Z) : x ∈ py.range lo hi ↔ lo ≤ x < hi.
Proof. unfold py.range. rewrite elem_of_seqZ. lia. Qed.

Lemma range_split_fresh (lo hi x : Z) (seen rest : list Z) :
  py.range lo hi = seen ++ x :: rest → lo ≤ x < hi ∧ x ∉ seen.
Proof.
  intros Hl. split.
  - apply range_elem. rewrite Hl. set_solver.
  - pose proof (NoDup_seqZ lo (hi - lo)) as Hnd. unfold py.range in Hl.
    rewrite Hl in Hnd. apply NoDup_app in Hnd as (_ & Hnd & _).
    intros Hin. apply (Hnd _ Hin). left.
Qed.

(** One iteration of the inner loop of [__calculate_minutiae_weights]. *)
Lemma score_pixel (image w : ndarray) (row col : Z) :
  np.rectangular image → interior image row col →
  np.cell w row col = Some 0 →
  ∃ w',
    (minutiae ← detect_minutiae (np.eq_int8 image 0) row col;
     if decide (minutiae = "bifurcation"%string) then np.iadd w row col 1
     else if decide (minutiae = "termination"%string) then np.iadd w row col 2
     else Return w) = Return w'
    ∧ length <$> w' = length <$> w
    ∧ ∀ i j, np.cell w' i j
             = if decide (i = row ∧ j = col)
               then Some (expected_weight image row col)
               else np.cell w i j.
Proof.
  intros Hrect Hint Hcell.
  rewrite detect_minutiae_interior by done. cbn [mbind result_bind].
  unfold expected_weight, classification.
  destruct (decide (ridge image row col = 1)) as [Hridge|Hridge].
  - rewrite (decide_True (P := _ ∧ _)) by done.
    destruct (decide (crossing_number image row col = 1)) as [H1|H1].
    { rewrite decide_False, decide_True by done.
      destruct (iadd_spec w row col 2 0 Hcell) as (w' & -> & ? & ?). eauto. }
    destruct (decide (crossing_number image row col = 3)) as [H3|H3].
    { rewrite decide_True by done.
      destruct (iadd_spec w row col 1 0 Hcell) as (w' & -> & ? & ?). eauto. }
    rewrite !decide_False by done. exists w. split; [done|split; [done|]].
    intros i j. case_decide as Hij; [|done]. by destruct Hij as [-> ->].
  - rewrite (decide_False (P := _ ∧ _)) by naive_solver.
    rewrite !decide_False by done. exists w. split; [done|split; [done|]].
    intros i j. case_decide as Hij; [|done]. by destruct Hij as [-> ->].
Qed.

Lemma cell_zeros_like (image : ndarray) (i j : Z) :
  np.cell (np.zeros_like image) i j = (λ _, 0) <$> np.cell image i j.
Proof. apply cell_fmap. Qed.

Lemma expected_weight_exterior (image : ndarray) (r c : Z) :
  ¬ interior image r c → expected_weight image r c = 0.
Proof. intros H. unfold expected_weight. by rewrite decide_False by naive_solver. Qed.

(** C1. On every skeleton, a rectangular array of any size,
    [__calculate_minutiae_weights] returns a weight image of the same shape
    in which every interior ridge pixel whose crossing number is 1 holds 2,
    every interior ridge pixel whose crossing number is 3 holds 1, and every
    other cell holds 0: the interior ridge pixels of another crossing number,
    the pixels that are no ridge, and the one-pixel border.  The crossing
    number is taken over the ring as the specification words it; the scorer
    walks the ring the other way round, which leaves the sum unchanged. *)
Theorem calculate_minutiae_weights_spec (image : ndarray) :
  np.rectangular image →
  ∃ weights,
    calculate_minutiae_weights image = Return weights
    ∧ np.shape0 weights = np.shape0 image
    ∧ np.shape1 weights = np.shape1 image
    ∧ np.rectangular weights
    ∧ ∀ r c, 0 ≤ r < np.shape0 image → 0 ≤ c < np.shape1 image →
        np.getitem weights r c = Return (expected_weight image r c).
Proof.
  intros Hrect. unfold calculate_minutiae_weights.
  set (R := np.shape0 image). set (C := np.shape1 image).
  pose (Inv := λ (visited : Z → Z → Prop) (w : ndarray),
    length <$> w = length <$> image
    ∧ ∀ i j, 0 ≤ i < R → 0 ≤ j < C →
        (visited i j → np.cell w i j = Some (expected_weight image i j))
        ∧ (¬ visited i j → np.cell w i j = Some 0)).
  destruct (for_invariant
    (λ seen, Inv (λ i j, j ∈ seen ∧ 1 ≤ i < R - 1))
    (λ col weights,
       for_ (py.range 1 (R - 1)) (λ row weights,
         minutiae ← detect_minutiae (np.eq_int8 image 0) row col;
         if decide (minutiae = "bifurcation"%string) then
           np.iadd weights row col 1
         else if decide (minutiae = "termination"%string) then
           np.iadd weights row col 2
         else Return weights) weights)
    (py.range 1 (C - 1)) (np.zeros_like image)) as (w & Hw & Hlen & Hcells).
  - (* no pixel is visited before the loops *)
    split.
    + unfold np.zeros_like. rewrite <- list_fmap_compose.
      apply list_fmap_ext. intros _ row _. simpl. by rewrite length_fmap.
    + intros i j Hi Hj. rewrite cell_zeros_like.
      destruct (cell_in_bounds image i j Hrect Hi Hj) as [v ->]. simpl.
      split; [|done]. set_solver.
  - (* one column *)
    intros cols col rest w Hsplit [Hlen Hcells].
    apply range_split_fresh in Hsplit as [Hcol Hfresh].
    destruct (for_invariant
      (λ seen, Inv (λ i j, (j ∈ cols ∧ 1 ≤ i < R - 1) ∨ (j = col ∧ i ∈ seen)))
      (λ row weights,
         minutiae ← detect_minutiae (np.eq_int8 image 0) row col;
         if decide (minutiae = "bifurcation"%string) then
           np.iadd weights row col 1
         else if decide (minutiae = "termination"%string) then
           np.iadd weights row col 2
         else Return weights)
      (py.range 1 (R - 1)) w) as (w' & Hw' & Hlen' & Hcells').
    + split; [done|]. intros i j Hi Hj.
      destruct (Hcells i j Hi Hj) as [Hv Hn]. split.
      * intros [?|[_ []%elem_of_nil]]. auto.
      * intros Hnot. apply Hn. tauto.
    + intros rows row rest' w0 Hsplit' [Hlen0 Hcells0].
      apply range_split_fresh in Hsplit' as [Hrow Hfresh'].
      destruct (score_pixel image w0 row col) as (w1 & Hw1 & Hlen1 & Hcells1).
      * done.
      * unfold interior. fold R C. lia.
      * apply Hcells0; [lia..|]. intros [[? _]|[_ ?]]; done.
      * exists w1. split; [done|]. split; [congruence|].
        intros i j Hi Hj. rewrite Hcells1.
        destruct (Hcells0 i j Hi Hj) as [Hv Hn].
        destruct (decide (i = row ∧ j = col)) as [[-> ->]|Hne]; split.
        -- done.
        -- intros []. right. split; [done|]. set_solver.
        -- intros [?|[-> [?|?%list_elem_of_singleton]%elem_of_app]].
           ++ auto.
           ++ auto.
           ++ naive_solver.
        -- intros Hnot. apply Hn. intros [?|[-> ?]]; apply Hnot; [by left|].
           right. split; [done|]. set_solver.
    + exists w'. split; [done|]. split; [done|].
      intros i j Hi Hj. destruct (Hcells' i j Hi Hj) as [Hv Hn]. split.
      * intros [[?|Heq%list_elem_of_singleton]%elem_of_app ?].
        -- apply Hv. by left.
        -- subst j. apply Hv. right. split; [done|]. by apply range_elem.
      * intros Hnot. apply Hn. intros [[? ?]|[-> ?%range_elem]]; apply Hnot.
        -- split; [|done]. set_solver.
        -- split; [|done]. set_solver.
  - exists w. split; [done|].
    destruct (shape_of_row_lengths w image Hlen) as (H0 & H1 & Hr).
    split; [done|]. split; [done|]. split; [auto|].
    intros r c Hr' Hc'. rewrite getitem_cell by lia.
    destruct (Hcells r c Hr' Hc') as [Hv Hn].
    destruct (decide (interior image r c)) as [[? ?]|Hext].
    + rewrite Hv; [done|]. split; [|done]. by apply range_elem.
    + rewrite Hn.
      * by rewrite expected_weight_exterior.
      * intros [?%range_elem ?]. apply Hext. done.
Qed.

(** ** The scan of [__get_best_region] *)

Lemma foldl_scan {S} (visit : Z → S → Z → S) (cols rows : list Z) (st : S) :
  foldl (λ st col, foldl (visit col) st rows) st cols
  = foldl (λ st x, visit x.1 st x.2) st
          (cols ≫= λ col, rows ≫= λ row, [(col, row)]).
Proof.
  revert st. induction cols as [|col cols IH]; intros st; [done|].
  rewrite bind_cons, foldl_app. simpl foldl at 1. rewrite IH. f_equal.
  clear. revert st. induction rows as [|row rows IH]; intros st; [done|].
  rewrite bind_cons. simpl. apply IH.
Qed.

Lemma scan_order_candidate (thin_image : ndarray) (x : Z * Z) :
  x ∈ scan_order thin_image ↔ candidate thin_image x.
Proof.
  unfold scan_order, candidate. rewrite list_elem_of_bind.
  destruct x as [c r]. simpl. split.
  - intros (col & (row & Hx%list_elem_of_singleton & Hrow%range_elem)%list_elem_of_bind
            & Hcol%range_elem).
    by simplify_eq.
  - intros [Hc Hr]. exists c. rewrite range_elem. split; [|done].
    apply list_elem_of_bind. exists r. rewrite range_elem.
    split; [|done]. by apply list_elem_of_singleton.
Qed.

Lemma range_sorted (lo hi : Z) : StronglySorted Z.lt (py.range lo hi).
Proof.
  unfold py.range, seqZ.
  apply (StronglySorted_fmap _ lt).
  - intros x y Hxy. lia.
  - generalize 0%nat. induction (Z.to_nat (hi - lo)) as [|n IH]; intros m.
    + constructor.
    + simpl. constructor; [apply IH|].
      apply Forall_forall. intros x Hx%elem_of_seq. lia.
Qed.

Lemma scan_order_sorted (thin_image : ndarray) :
  StronglySorted scanned_before (scan_order thin_image).
Proof.
  unfold scan_order.
  generalize (range_sorted 1 (np.shape0 thin_image - 7)).
  generalize (range_sorted 1 (np.shape1 thin_image - 7)).
  generalize (py.range 1 (np.shape0 thin_image - 7)) as rows.
  generalize (py.range 1 (np.shape1 thin_image - 7)) as cols.
  intros cols rows Hcols Hrows.
  induction Hcols as [|col cols Hcols IH Hlt]; [constructor|].
  rewrite bind_cons. apply StronglySorted_app_2.
  - intros x y (row & ->%list_elem_of_singleton & _)%list_elem_of_bind
                (col' & (row' & ->%list_elem_of_singleton & _)%list_elem_of_bind
                 & Hcol')%list_elem_of_bind.
    left. simpl. rewrite Forall_forall in Hlt. by apply Hlt.
  - clear -Hrows. induction Hrows as [|row rows Hrows IH Hlt]; [constructor|].
    rewrite bind_cons. simpl. constructor; [done|].
    apply Forall_forall.
    intros y (row' & ->%list_elem_of_singleton & Hrow')%list_elem_of_bind.
    right. simpl. rewrite Forall_forall in Hlt. auto.
  - done.
Qed.

Lemma visit_window_accepted w B mask (x : Z * Z) best bw :
  accepted mask B x →
  visit_window w B mask (B * 8) x.1 (best, bw) x.2
  = if le_weight (window_sum w B x) bw
    then (Some (region_of B x), Some (window_sum w B x))
    else (best, bw).
Proof.
  unfold accepted, window_sum, visit_window. intros Hacc.
  by rewrite decide_True by done.
Qed.

Lemma visit_window_rejected w B mask (x : Z * Z) st :
  ¬ accepted mask B x →
  visit_window w B mask (B * 8) x.1 st x.2 = st.
Proof.
  unfold accepted, window_sum, visit_window. intros Hacc. destruct st.
  by rewrite decide_False by done.
Qed.

(** The state of the scan after the windows [l]: nothing yet when none of
    them was accepted, and otherwise the last of the accepted windows of
    least weight. *)
Lemma scan_state w B mask (l : list (Z * Z)) :
  let st := foldl (λ st x, visit_window w B mask (B * 8) x.1 st x.2)
                  (None, None) l in
  (Forall (λ y, ¬ accepted mask B y) l ∧ st = (None, None))
  ∨ ∃ pre x post,
      l = pre ++ x :: post ∧ accepted mask B x
      ∧ Forall (λ y, accepted mask B y → window_sum w B x ≤ window_sum w B y) pre
      ∧ Forall (λ y, accepted mask B y → window_sum w B x < window_sum w B y) post
      ∧ st = (Some (region_of B x), Some (window_sum w B x)).
Proof.
  induction l as [|y l IH] using rev_ind; [left; by split|].
  cbn zeta in *. rewrite foldl_snoc.
  destruct (decide (accepted mask B y)) as [Hy|Hy].
  - destruct IH as [[Hnone ->]|(pre & x & post & -> & Hx & Hpre & Hpost & ->)].
    + right. exists l, y, []. rewrite visit_window_accepted by done. simpl.
      split; [done|]. split; [done|]. split; [|by split].
      eapply Forall_impl; [exact Hnone|]. naive_solver.
    + right. rewrite visit_window_accepted by done. simpl.
      case_bool_decide as Hle.
      * exists (pre ++ x :: post), y, []. split; [done|]. split; [done|].
        split; [|by split].
        apply Forall_app. split; [|constructor].
        -- eapply Forall_impl; [exact Hpre|]. simpl. intros z Hz Hacc.
           specialize (Hz Hacc). lia.
        -- lia.
        -- eapply Forall_impl; [exact Hpost|]. simpl. intros z Hz Hacc.
           specialize (Hz Hacc). lia.
      * exists pre, x, (post ++ [y]). rewrite <- app_assoc. simpl.
        split; [done|]. split; [done|]. split; [done|]. split; [|done].
        apply Forall_app. split; [done|]. constructor; [|constructor]. lia.
  - rewrite visit_window_rejected by done.
    destruct IH as [[Hnone ->]|(pre & x & post & -> & Hx & Hpre & Hpost & ->)].
    + left. split; [|done]. apply Forall_app. split; [done|]. by constructor.
    + right. exists pre, x, (post ++ [y]). rewrite <- app_assoc. simpl.
      split; [done|]. split; [done|]. split; [done|]. split; [|done].
      apply Forall_app. split; [done|]. constructor; [done|constructor].
Qed.

Lemma scanned_before_irrefl (x : Z * Z) : ¬ scanned_before x x.
Proof. unfold scanned_before. lia. Qed.

Lemma scanned_before_asym (x y : Z * Z) :
  scanned_before x y → ¬ scanned_before y x.
Proof. unfold scanned_before. lia. Qed.

Lemma get_best_region_unfold thin w B mask :
  B ≠ 0 →
  get_best_region thin w B mask
  = let st := foldl (λ st x, visit_window w B mask (B * 8) x.1 st x.2)
                    (None, None) (scan_order thin) in
    if py.truthy st.1 then Return st.1 else Return None.
Proof.
  intros HB. unfold get_best_region, py.floordiv.
  rewrite decide_False by done. cbn [mbind result_bind].
  replace ((B * 8) `div` B) with 8 by (rewrite Z.mul_comm, Z.div_mul; done).
  change (8 - 1) with 7.
  rewrite (foldl_scan (visit_window w B mask (B * 8))).
  fold (scan_order thin). cbn zeta.
  by destruct (foldl _ _ (scan_order thin)).
Qed.

(** What [__get_best_region] returns, for a positive block size. *)
Lemma get_best_region_spec thin w B mask :
  B ≠ 0 →
  (get_best_region thin w B mask = Return None
   ∧ ∀ y, candidate thin y → ¬ accepted mask B y)
  ∨ ∃ x,
      get_best_region thin w B mask = Return (Some (region_of B x))
      ∧ candidate thin x ∧ accepted mask B x
      ∧ ∀ y, candidate thin y → accepted mask B y →
          window_sum w B x ≤ window_sum w B y
          ∧ (scanned_before x y → window_sum w B x < window_sum w B y).
Proof.
  intros HB. rewrite get_best_region_unfold by done. cbn zeta.
  destruct (scan_state w B mask (scan_order thin))
    as [[Hnone ->]|(pre & x & post & Hsplit & Hx & Hpre & Hpost & ->)].
  - left. split; [done|]. intros y Hy%scan_order_candidate.
    rewrite Forall_forall in Hnone. auto.
  - right. exists x. split; [done|].
    pose proof (scan_order_sorted thin) as Hsorted. rewrite Hsplit in Hsorted.
    apply StronglySorted_app in Hsorted as (Hbefore & _ & Hafter).
    apply StronglySorted_cons in Hafter as [Hafter _].
    rewrite Forall_forall in Hpre, Hpost, Hafter.
    split; [|split; [done|]].
    { apply scan_order_candidate. rewrite Hsplit. set_solver. }
    intros y Hy%scan_order_candidate Hacc. rewrite Hsplit in Hy.
    apply elem_of_app in Hy as [Hy|[->|Hy]%elem_of_cons].
    + split; [auto|]. intros Hxy.
      destruct (scanned_before_asym x y Hxy). apply Hbefore; [done|left].
    + split; [lia|]. intros []%scanned_before_irrefl.
    + specialize (Hpost y Hy Hacc). split; [lia|done].
Qed.

(** ** Slices *)

Lemma slice_lookup {A} (l : list A) (lo hi : Z) (k : nat) :
  0 ≤ lo → 0 ≤ hi →
  py.slice l lo hi !! k
  = if decide (lo + k < hi) then l !! (Z.to_nat lo + k)%nat else None.
Proof.
  intros Hlo Hhi. unfold py.slice, py.clip.
  rewrite !decide_False by lia.
  destruct (decide (lo + k < hi)) as [Hk|Hk].
  - destruct (decide (lo + k < length l)) as [Hn|Hn].
    + rewrite lookup_take_lt by lia. rewrite lookup_drop. f_equal. lia.
    + rewrite (lookup_ge_None_2 l) by lia.
      apply lookup_ge_None_2. rewrite length_take, length_drop. lia.
  - apply lookup_ge_None_2. rewrite length_take. lia.
Qed.

Lemma slice_length {A} (l : list A) (lo hi : Z) :
  0 ≤ lo → lo ≤ hi → Z.of_nat (length (py.slice l lo hi)) ≤ hi - lo.
Proof.
  intros Hlo Hhi. unfold py.slice, py.clip.
  rewrite !decide_False by lia. rewrite length_take. lia.
Qed.

Lemma slice_Forall {A} (P : A → Prop) (l : list A) (lo hi : Z) :
  Forall P l → Forall P (py.slice l lo hi).
Proof. intros H. unfold py.slice. by apply Forall_take, Forall_drop. Qed.

Lemma slice_backwards {A} (l : list A) (lo hi : Z) :
  hi ≤ lo → lo < 0 → py.slice l lo hi = [].
Proof.
  intros Hhi Hlo. unfold py.slice, py.clip.
  rewrite !decide_True by lia.
  replace (Z.to_nat _) with 0%nat by lia. done.
Qed.

(** ** Sums *)

Lemma sum_binary (l : list Z) :
  Forall (λ v, v = 0 ∨ v = 1) l →
  py.sum l ≤ length l ∧ (py.sum l = length l → Forall (λ v, v = 1) l).
Proof.
  induction 1 as [|v l Hv _ [IHle IHeq]]; simpl.
  - split; [lia|constructor].
  - split; [lia|]. intros Hsum. constructor; [lia|]. apply IHeq. lia.
Qed.

Lemma sum_bounded (S : Z) (l : list Z) :
  Forall (λ s, s ≤ S) l →
  py.sum l ≤ S * length l ∧ (py.sum l = S * length l → Forall (λ s, s = S) l).
Proof.
  induction 1 as [|s l Hs _ [IHle IHeq]]; simpl.
  - split; [lia|constructor].
  - split; [lia|]. intros Hsum. constructor; [lia|]. apply IHeq. lia.
Qed.

(** A window of a 0/1 mask whose sum is the square of its side lies inside
    the mask and holds only ones. *)
Lemma full_window (mask : ndarray) (a c S : Z) :
  binary_mask mask → 0 ≤ a → 0 ≤ c → 0 < S →
  np.sum (np.slice2 mask a (a + S) c (c + S)) = S * S →
  ∀ i j, a ≤ i < a + S → c ≤ j < c + S → np.cell mask i j = Some 1.
Proof.
  intros Hbin Ha Hc HS Hsum. unfold np.sum, np.slice2 in Hsum.
  set (rows := py.slice mask a (a + S)) in *.
  assert (Z.of_nat (length rows) ≤ S) as Hrows.
  { pose proof (slice_length mask a (a + S) ltac:(lia) ltac:(lia)).
    unfold rows. lia. }
  assert (Forall (λ row, py.sum (py.slice row c (c + S)) ≤ S
                         ∧ (py.sum (py.slice row c (c + S)) = S →
                            Z.of_nat (length (py.slice row c (c + S))) = S
                            ∧ Forall (λ v, v = 1) (py.slice row c (c + S))))
                 rows) as Hrow.
  { eapply Forall_impl; [apply slice_Forall, Hbin|]. simpl.
    intros row Hrowbin.
    destruct (sum_binary (py.slice row c (c + S))) as [Hle Heq].
    { by apply slice_Forall. }
    pose proof (slice_length row c (c + S) ltac:(lia) ltac:(lia)).
    split; [lia|]. intros E. split; [lia|]. apply Heq. lia. }
  destruct (sum_bounded S (py.sum <$> ((λ row, py.slice row c (c + S)) <$> rows)))
    as [Hle Heq].
  { rewrite !Forall_fmap. eapply Forall_impl; [exact Hrow|]. naive_solver. }
  rewrite !length_fmap in Hle, Heq.
  assert (Z.of_nat (length rows) = S) as Hlen by nia.
  rewrite Hlen in Heq. specialize (Heq Hsum). rewrite !Forall_fmap in Heq.
  intros i j Hi Hj.
  destruct (lookup_lt_is_Some_2 rows (Z.to_nat (i - a))) as [row Hrowi]; [lia|].
  pose proof Hrowi as Hmask. unfold rows in Hmask.
  rewrite slice_lookup, decide_True in Hmask by lia.
  replace (Z.to_nat a + Z.to_nat (i - a))%nat with (Z.to_nat i) in Hmask by lia.
  rewrite Forall_forall in Hrow, Heq.
  pose proof (list_elem_of_lookup_2 _ _ _ Hrowi) as Hin.
  destruct (Hrow row Hin) as [_ Hfull]. specialize (Heq row Hin). simpl in Heq.
  destruct (Hfull Heq) as [Hlenrow Hones].
  destruct (lookup_lt_is_Some_2 (py.slice row c (c + S)) (Z.to_nat (j - c)))
    as [v Hv]; [lia|].
  rewrite Forall_forall in Hones.
  rewrite (Hones v (list_elem_of_lookup_2 _ _ _ Hv)) in Hv.
  rewrite slice_lookup, decide_True in Hv by lia.
  replace (Z.to_nat c + Z.to_nat (j - c))%nat with (Z.to_nat j) in Hv by lia.
  apply cell_Some. split; [lia|]. split; [lia|]. eauto.
Qed.

Lemma window_sum_negative (a : ndarray) (B : Z) (x : Z * Z) :
  B < 0 → 1 ≤ x.1 → window_sum a B x = 0.
Proof.
  intros HB Hx. unfold window_sum, np.slice2.
  rewrite slice_backwards; [done|nia..].
Qed.

Lemma accepted_positive (thin mask : ndarray) (B : Z) (x : Z * Z) :
  B ≠ 0 → candidate thin x → accepted mask B x → 0 < B.
Proof.
  intros HB [Hx _] Hacc. destruct (decide (0 < B)) as [|Hneg]; [done|].
  unfold accepted in Hacc. rewrite window_sum_negative in Hacc by lia. nia.
Qed.

(** ** The selected region *)

Lemma region_of_inj (B : Z) (x y : Z * Z) :
  B ≠ 0 → region_of B x = region_of B y → x = y.
Proof.
  intros HB. destruct x as [c r], y as [c' r']. unfold region_of. simpl.
  intros Heq. simplify_eq. f_equal; nia.
Qed.

Lemma scanned_before_total (x y : Z * Z) :
  x = y ∨ scanned_before x y ∨ scanned_before y x.
Proof.
  destruct x as [c r], y as [c' r']. unfold scanned_before. simpl.
  destruct (decide (c = c')), (decide (r = r')); subst; auto; lia.
Qed.

Lemma foldl_ext_in {A B} (f g : A → B → A) (l : list B) (a : A) :
  (∀ a x, x ∈ l → f a x = g a x) → foldl f a l = foldl g a l.
Proof.
  revert a. induction l as [|x l IH]; intros a Hfg; [done|]. simpl.
  rewrite Hfg by left. apply IH. intros a' y Hy. apply Hfg. by right.
Qed.

Lemma window_sum_le (mask : ndarray) (B : Z) (x : Z * Z) :
  binary_mask mask → 0 < B → 0 ≤ x.1 → 0 ≤ x.2 →
  window_sum mask B x ≤ B * 8 * (B * 8).
Proof.
  intros Hbin HB Hc Hr. unfold window_sum, np.sum, np.slice2.
  set (S := B * 8).
  set (rows := py.slice mask (x.1 * B) (x.1 * B + S)).
  pose proof (slice_length mask (x.1 * B) (x.1 * B + S) ltac:(nia) ltac:(lia)).
  destruct (sum_bounded S
    (py.sum <$> ((λ row, py.slice row (x.2 * B) (x.2 * B + S)) <$> rows)))
    as [Hle _].
  - rewrite !Forall_fmap.
    eapply Forall_impl; [apply slice_Forall, Hbin|]. simpl. intros row Hrow.
    destruct (sum_binary (py.slice row (x.2 * B) (x.2 * B + S))) as [Hle _].
    { by apply slice_Forall. }
    pose proof (slice_length row (x.2 * B) (x.2 * B + S) ltac:(nia) ltac:(lia)).
    lia.
  - rewrite !length_fmap in Hle. fold rows in H. nia.
Qed.

(** C2. For every skeleton, weight image and mask and every block size
    other than 0: a region the selector returns is a window
    [a, a + S) x [c, c + S) with S = 8 * block_size over which the mask sums
    to exactly S * S, and when the mask is 0/1 every pixel of that footprint
    lies inside the mask and is valid; when no candidate window has a fully
    valid footprint the selector returns [None]. *)
Theorem get_best_region_full_validity (thin w mask : ndarray) (B : Z) :
  B ≠ 0 →
  (∀ region, get_best_region thin w B mask = Return (Some region) →
     ∃ a c,
       region = [a; a + B * 8; c; c + B * 8]
       ∧ np.sum (np.slice2 mask a (a + B * 8) c (c + B * 8))
         = B * 8 * (B * 8)
       ∧ (binary_mask mask →
          ∀ i j, a ≤ i < a + B * 8 → c ≤ j < c + B * 8 →
            np.cell mask i j = Some 1))
  ∧ ((∀ x, candidate thin x → ¬ accepted mask B x) →
     get_best_region thin w B mask = Return None).
Proof.
  intros HB.
  destruct (get_best_region_spec thin w B mask HB)
    as [[-> Hnone]|(x & -> & Hcand & Hacc & _)].
  - split; [done|]. done.
  - split.
    + intros region [= <-]. exists (x.1 * B), (x.2 * B).
      split; [done|]. split; [exact Hacc|].
      pose proof (accepted_positive thin mask B x HB Hcand Hacc) as Hpos.
      destruct Hcand as [Hc Hr].
      intros Hbin. apply full_window; [done|nia|nia|lia|exact Hacc].
    + intros Hnone. by destruct (Hnone x).
Qed.

(** C3. Of two accepted candidate windows with equal total weight, [x1]
    scanned before [x2] (column index in the outer loop, row index in the
    inner one), the selector never returns the earlier one; and it returns
    the later one whenever no accepted window is lighter and no accepted
    window scanned after it weighs the same, the running minimum being
    updated with [<=]. *)
Theorem get_best_region_tie_break (thin w mask : ndarray) (B : Z)
    (x1 x2 : Z * Z) :
  B ≠ 0 →
  candidate thin x1 → candidate thin x2 →
  accepted mask B x1 → accepted mask B x2 →
  scanned_before x1 x2 →
  window_sum w B x1 = window_sum w B x2 →
  get_best_region thin w B mask ≠ Return (Some (region_of B x1))
  ∧ ((∀ y, candidate thin y → accepted mask B y →
        window_sum w B x2 ≤ window_sum w B y
        ∧ (scanned_before x2 y → window_sum w B x2 ≠ window_sum w B y)) →
     get_best_region thin w B mask = Return (Some (region_of B x2))).
Proof.
  intros HB Hc1 Hc2 Ha1 Ha2 Hbefore Htie.
  destruct (get_best_region_spec thin w B mask HB)
    as [[-> Hnone]|(x & -> & Hcand & Hacc & Hmin)].
  { by destruct (Hnone x1). }
  split.
  - intros Heq.
    assert (x = x1) as -> by (apply (region_of_inj B); congruence).
    destruct (Hmin x2 Hc2 Ha2) as [_ Hlt]. specialize (Hlt Hbefore). lia.
  - intros Hmin2. do 2 f_equal.
    destruct (Hmin x2 Hc2 Ha2) as [Hle Hlt].
    destruct (Hmin2 x Hcand Hacc) as [Hle2 Hne].
    destruct (scanned_before_total x x2) as [->|[Hx|Hx]]; [done|..].
    + specialize (Hlt Hx). lia.
    + specialize (Hne Hx). lia.
Qed.

(** C5. The window span is S / B - 1 = 7.  The outer loop runs over the
    column block index from 1 up to, and excluding, cols - 7 and the inner
    loop over the row block index from 1 up to, and excluding, rows - 7, cols
    and rows being the dimensions of the skeleton in pixels, not divided by
    the block size.  A returned region is [c * B, c * B + S) by
    [r * B, r * B + S) for such a pair (c, r); the result depends on the mask
    and on the weights through the windows of these block indices only, so no
    other origin is considered; and an accepted window among them makes the
    selector return a region. *)
Theorem get_best_region_scan_ranges (thin w mask : ndarray) (B : Z) :
  B ≠ 0 →
  (B * 8) `div` B - 1 = 7
  ∧ (∀ region, get_best_region thin w B mask = Return (Some region) →
     ∃ col row,
       1 ≤ col < np.shape1 thin - 7 ∧ 1 ≤ row < np.shape0 thin - 7
       ∧ region = [col * B; col * B + B * 8; row * B; row * B + B * 8])
  ∧ (∀ w' mask',
       (∀ x, candidate thin x →
          window_sum mask' B x = window_sum mask B x
          ∧ window_sum w' B x = window_sum w B x) →
       get_best_region thin w' B mask' = get_best_region thin w B mask)
  ∧ (∀ x, candidate thin x → accepted mask B x →
       ∃ region, get_best_region thin w B mask = Return (Some region)).
Proof.
  intros HB. split; [|split; [|split]].
  - by rewrite Z.mul_comm, Z.div_mul.
  - intros region Hregion.
    destruct (get_best_region_spec thin w B mask HB)
      as [[Hnone _]|(x & Hsome & [Hc Hr] & _)]; [congruence|].
    exists x.1, x.2. rewrite Hsome in Hregion. by simplify_eq.
  - intros w' mask' Hsame. rewrite !get_best_region_unfold by done. cbn zeta.
    rewrite (foldl_ext_in _
      (λ st x, visit_window w B mask (B * 8) x.1 st x.2)); [done|].
    intros [best bw] x Hx%scan_order_candidate.
    destruct (Hsame x Hx) as [Hm Hw]. unfold window_sum in Hm, Hw.
    unfold visit_window. by rewrite Hm, Hw.
  - intros x Hcand Hacc.
    destruct (get_best_region_spec thin w B mask HB)
      as [[_ Hnone]|(y & Hsome & _)]; [by destruct (Hnone x)|eauto].
Qed.

(** C9. The selector compares no shapes: for every block size other than 0
    it returns, a region or [None], whatever the shapes of the skeleton, the
    weight image and the mask are, and of the skeleton it uses nothing but the
    shape. *)
Theorem get_best_region_no_shape_check (thin w mask : ndarray) (B : Z) :
  B ≠ 0 →
  (∃ r, get_best_region thin w B mask = Return r)
  ∧ (∀ thin', np.shape0 thin' = np.shape0 thin →
              np.shape1 thin' = np.shape1 thin →
       get_best_region thin' w B mask = get_best_region thin w B mask).
Proof.
  intros HB. split.
  - rewrite get_best_region_unfold by done. cbn zeta.
    destruct (py.truthy _); eauto.
  - intros thin' H0 H1. unfold get_best_region. by rewrite H0, H1.
Qed.

(** C10. For a 0/1 mask of the shape of the skeleton and a block size other
    than 0: a returned region [a, b, c, d] is a square of side
    8 * block_size that lies inside the image, b <= rows and d <= cols; and
    every enumerated window that extends past the image has a mask sum
    strictly below S * S, which is why the validity check rejects it. *)
Theorem get_best_region_in_bounds (thin w mask : ndarray) (B : Z) :
  B ≠ 0 →
  binary_mask mask → np.rectangular mask →
  np.shape0 mask = np.shape0 thin → np.shape1 mask = np.shape1 thin →
  (∀ a b c d, get_best_region thin w B mask = Return (Some [a; b; c; d]) →
     b - a = 8 * B ∧ d - c = 8 * B
     ∧ 0 ≤ a ∧ b ≤ np.shape0 thin ∧ 0 ≤ c ∧ d ≤ np.shape1 thin)
  ∧ (∀ x, candidate thin x →
       np.shape0 thin < x.1 * B + 8 * B ∨ np.shape1 thin < x.2 * B + 8 * B →
       window_sum mask B x < 8 * B * (8 * B)).
Proof.
  intros HB Hbin Hrect H0 H1.
  assert (∀ x, candidate thin x → accepted mask B x →
            0 < B ∧ x.1 * B + 8 * B ≤ np.shape0 thin
            ∧ x.2 * B + 8 * B ≤ np.shape1 thin) as Hfit.
  { intros x Hcand Hacc.
    pose proof (accepted_positive thin mask B x HB Hcand Hacc) as Hpos.
    destruct Hcand as [Hc Hr].
    pose proof (full_window mask (x.1 * B) (x.2 * B) (B * 8) Hbin
                  ltac:(nia) ltac:(nia) ltac:(lia) Hacc
                  (x.1 * B + B * 8 - 1) (x.2 * B + B * 8 - 1)
                  ltac:(lia) ltac:(lia)) as Hcell.
    apply cell_bounds in Hcell; [|done]. lia. }
  split.
  - intros a b c d Hregion.
    destruct (get_best_region_spec thin w B mask HB)
      as [[Hnone _]|(x & Hsome & Hcand & Hacc & _)]; [congruence|].
    destruct (Hfit x Hcand Hacc) as (Hpos & Hb & Hd).
    rewrite Hsome in Hregion. unfold region_of in Hregion. simplify_eq.
    destruct Hcand as [Hc Hr]. repeat split; nia.
  - intros x Hcand Hout.
    destruct (decide (0 < B)) as [Hpos|Hneg].
    + pose proof (window_sum_le mask B x Hbin Hpos) as Hle.
      destruct Hcand as [Hc Hr].
      specialize (Hle ltac:(lia) ltac:(lia)).
      destruct (decide (accepted mask B x)) as [Hacc|Hrej].
      * destruct (Hfit x (conj Hc Hr) Hacc). lia.
      * unfold accepted in Hrej. lia.
    + destruct Hcand as [Hc Hr]. rewrite window_sum_negative by lia. nia.
Qed.

(** ** The diagonal scan *)

Lemma range_split_index (lo hi x : Z) (seen rest : list Z) :
  py.range lo hi = seen ++ x :: rest → x = lo + length seen.
Proof.
  intros Hl. apply (f_equal (.!! length seen)) in Hl.
  rewrite list_lookup_middle in Hl by done.
  unfold py.range in Hl. apply lookup_seqZ in Hl. lia.
Qed.

Lemma range_length (lo hi : Z) : lo ≤ hi → Z.of_nat (length (py.range lo hi)) = hi - lo.
Proof. intros H. unfold py.range. rewrite length_seqZ. lia. Qed.

Lemma getitem_Some (a : ndarray) (i j v : Z) :
  np.cell a i j = Some v → np.getitem a i j = Return v.
Proof.
  intros Hc. pose proof Hc as (Hi & Hj & _)%cell_Some.
  by rewrite getitem_cell, Hc.
Qed.

(** C4. A diagonal of [p] background cells followed by ridge cells only
    yields count 1 as soon as it holds a ridge cell, whether or not a
    background cell precedes the ridge cells ([p] may be 0, for the scan
    starts "on white"); an entirely background diagonal, [p] being its
    length, yields count 0. *)
Theorem count_diagonal_lines_background_then_ridge (image : ndarray) (p : Z) :
  0 ≤ p ≤ np.shape0 image →
  (∀ i, 0 ≤ i < p → np.cell image i i = Some 255) →
  (∀ i, p ≤ i < np.shape0 image → np.cell image i i = Some 0) →
  count_diagonal_lines image
  = Return (if decide (p < np.shape0 image) then 1 else 0).
Proof.
  intros Hp Hwhite Hridge. unfold count_diagonal_lines.
  match goal with
  | |- context [for_ ?l ?body ?s] =>
      destruct (for_invariant
        (λ (seen : list Z) (st : bool * Z),
           (Z.of_nat (length seen) ≤ p → st = (true, 0))
           ∧ (p < Z.of_nat (length seen) → st = (false, 1)))
        body l s) as (st & -> & Hle & Hgt)
  end.
  - simpl. split; [done|lia].
  - intros seen i rest st Hsplit [Hle Hgt].
    pose proof (range_split_index _ _ _ _ _ Hsplit) as Hi.
    apply range_split_fresh in Hsplit as [Hrange _].
    rewrite length_app. simpl length.
    destruct (decide (i < p)) as [Hlt|Hge].
    + rewrite Hle by lia. rewrite (getitem_Some _ _ _ 255) by (apply Hwhite; lia).
      simpl. eexists. split; [done|]. split; [done|lia].
    + rewrite (getitem_Some _ _ _ 0) by (apply Hridge; lia).
      destruct (decide (i = p)) as [->|Hne].
      * rewrite Hle by lia. simpl. eexists. split; [done|]. split; intros; [lia|reflexivity].
      * rewrite Hgt by lia. simpl. eexists. split; [done|]. split; intros; [lia|reflexivity].
  - rewrite range_length in Hle, Hgt by (unfold np.shape0; lia).
    case_decide.
    + by rewrite Hgt by lia.
    + by rewrite Hle by lia.
Qed.

Lemma count_diagonal_lines_total (image : ndarray) :
  np.rectangular image → np.shape0 image ≤ np.shape1 image →
  ∃ n, count_diagonal_lines image = Return n.
Proof.
  intros Hrect Hshape. unfold count_diagonal_lines.
  match goal with
  | |- context [for_ ?l ?body ?s] =>
      destruct (for_invariant (λ _ (_ : bool * Z), True) body l s)
        as ([w n] & -> & _)
  end.
  - done.
  - intros seen i rest [w n] [Hi _]%range_split_fresh _.
    destruct (cell_in_bounds image i i) as [v Hv]; [done|lia..|].
    rewrite (getitem_Some _ _ _ v Hv). cbn [mbind result_bind].
    destruct (bool_decide (v = 0) && w); cbn [mbind result_bind]; eauto.
  - eauto.
Qed.

Lemma count_diagonal_lines_hysteresis (image : ndarray) :
  (∀ i, 0 ≤ i < np.shape0 image →
     np.cell image i i = Some 0 ∨ np.cell image i i = Some 255) →
  count_diagonal_lines image = Return (run_starts 255 (diagonal image)).
Proof.
  intros Hcells. unfold count_diagonal_lines, diagonal.
  match goal with
  | |- context [for_ _ ?body _] => set (step := body)
  end.
  assert (∀ i w counter v, np.cell image i i = Some v →
            step i (w, counter)
            = Return (if decide (v = 255) then true
                      else if bool_decide (v = 0) && w then false else w,
                      if bool_decide (v = 0) && w then counter + 1
                      else counter)) as Hstep.
  { intros i w counter v Hv. unfold step.
    rewrite !(getitem_Some _ _ _ _ Hv). cbn [mbind result_bind].
    destruct (bool_decide (v = 0) && w); cbn [mbind result_bind];
      by case_decide. }
  assert (∀ (l : list Z) previous counter,
            (∀ i, i ∈ l → np.cell image i i = Some 0
                          ∨ np.cell image i i = Some 255) →
            ∃ w, for_ l step (bool_decide (previous = 255), counter)
                 = Return (w, counter
                              + run_starts previous
                                  ((λ i, default 0 (np.cell image i i)) <$> l)))
    as Hscan.
  { clearbody step.
    induction l as [|i l IH]; intros previous counter Hl.
    - exists (bool_decide (previous = 255)). simpl. f_equal. f_equal. lia.
    - cbn [for_].
      destruct (Hl i ltac:(left)) as [Hv|Hv];
        rewrite (Hstep _ _ _ _ Hv); cbn [mbind result_bind];
        rewrite fmap_cons, Hv; simpl.
      + destruct (decide (previous = 255)) as [Hp|Hp].
        * rewrite bool_decide_true by done.
          rewrite decide_True by done. simpl.
          destruct (IH 0 (counter + 1)) as [w Hw].
          { intros j Hj. apply Hl. by right. }
          exists w. rewrite bool_decide_false in Hw by done.
          rewrite Hw. f_equal. f_equal. lia.
        * rewrite bool_decide_false by done.
          rewrite decide_False by tauto. simpl.
          destruct (IH 0 counter) as [w Hw].
          { intros j Hj. apply Hl. by right. }
          exists w. rewrite bool_decide_false in Hw by done.
          rewrite Hw. f_equal.
      + destruct (IH 255 counter) as [w Hw].
        { intros j Hj. apply Hl. by right. }
        exists w. change (bool_decide (255 = 255)) with true in Hw.
        destruct (bool_decide (previous = 255)); simpl; rewrite Hw;
          f_equal. }
  destruct (Hscan (py.range 0 (np.shape0 image)) 255 0) as [w Hw].
  { intros i Hi%range_elem. by apply Hcells. }
  change (true, 0) with (bool_decide (255 = 255), 0). rewrite Hw.
  cbn [mbind result_bind]. by rewrite Z.add_0_l.
Qed.

Lemma count_diagonal_lines_cells (image : ndarray) (cells : Z → Z) :
  (∀ i, 0 ≤ i < np.shape0 image →
     np.cell image i i = Some (cells i) ∧ (cells i = 0 ∨ cells i = 255)) →
  count_diagonal_lines image
  = Return (run_starts 255 (cells <$> py.range 0 (np.shape0 image))).
Proof.
  intros Hcells.
  rewrite count_diagonal_lines_hysteresis.
  - unfold diagonal. f_equal. f_equal. apply list_fmap_ext.
    intros k i Hi%list_elem_of_lookup_2%range_elem.
    by destruct (Hcells i Hi) as [-> _].
  - intros i Hi. destruct (Hcells i Hi) as [-> [-> | ->]]; auto.
Qed.

(** ** Shapes of crops and of filtered images *)

Lemma slice_length_inside {A} (l : list A) (lo hi : Z) :
  0 ≤ lo → lo ≤ hi → hi ≤ length l →
  Z.of_nat (length (py.slice l lo hi)) = hi - lo.
Proof.
  intros Hlo Hhi Hlen. unfold py.slice, py.clip.
  rewrite !decide_False by lia. rewrite length_take, length_drop. lia.
Qed.

Lemma slice2_shape (a : ndarray) (r0 r1 c0 c1 : Z) :
  np.rectangular a →
  0 ≤ r0 → r0 < r1 → r1 ≤ np.shape0 a → 0 ≤ c0 → c0 ≤ c1 → c1 ≤ np.shape1 a →
  np.shape0 (np.slice2 a r0 r1 c0 c1) = r1 - r0
  ∧ np.shape1 (np.slice2 a r0 r1 c0 c1) = c1 - c0
  ∧ np.rectangular (np.slice2 a r0 r1 c0 c1).
Proof.
  intros Hrect Hr0 Hr1 Hr Hc0 Hc1 Hc.
  assert (Forall (λ row : list Z, Z.of_nat (length row) = c1 - c0)
            (np.slice2 a r0 r1 c0 c1)) as Hrows.
  { unfold np.slice2. rewrite Forall_fmap.
    eapply Forall_impl; [apply slice_Forall, Hrect|]. simpl.
    intros row Hrow. apply slice_length_inside; lia. }
  assert (np.shape0 (np.slice2 a r0 r1 c0 c1) = r1 - r0) as H0.
  { unfold np.shape0, np.slice2. rewrite length_fmap.
    apply slice_length_inside; unfold np.shape0 in Hr; lia. }
  assert (np.shape1 (np.slice2 a r0 r1 c0 c1) = c1 - c0) as H1.
  { destruct (np.slice2 a r0 r1 c0 c1) as [|row rows] eqn:E.
    - unfold np.shape0 in H0. simpl in H0. lia.
    - simpl. by inv Hrows. }
  split; [done|]. split; [done|]. unfold np.rectangular. by rewrite H1.
Qed.

Lemma row_lengths_imap {A B} (f : nat → list A → list B) (l : list (list A)) :
  (∀ i row, length (f i row) = length row) →
  length <$> imap f l = length <$> l.
Proof.
  revert f. induction l as [|row l IH]; intros f Hf; [done|].
  simpl. rewrite Hf. f_equal. apply IH. intros i r. apply Hf.
Qed.

Lemma erode_shape (src kernel : ndarray) :
  0 < np.shape0 src → 0 < np.shape1 src →
  ∃ dst, cv2.erode src kernel = Return dst ∧ length <$> dst = length <$> src.
Proof.
  intros H0 H1. unfold cv2.erode. rewrite decide_False by lia.
  eexists. split; [done|]. apply row_lengths_imap.
  intros i row. apply length_imap.
Qed.

Lemma threshold_binary_shape (src : ndarray) (thresh maxval : Z) :
  length <$> cv2.threshold_binary src thresh maxval = length <$> src.
Proof.
  unfold cv2.threshold_binary. rewrite <- list_fmap_compose.
  apply list_fmap_ext. intros _ row _. simpl. apply length_fmap.
Qed.

Lemma fliplr_shape (a : ndarray) : length <$> np.fliplr a = length <$> a.
Proof.
  unfold np.fliplr. rewrite <- list_fmap_compose.
  apply list_fmap_ext. intros _ row _. simpl. apply length_reverse.
Qed.

Lemma cell_fliplr (a : ndarray) (i j : Z) :
  np.rectangular a → 0 ≤ i < np.shape0 a → 0 ≤ j < np.shape1 a →
  np.cell (np.fliplr a) i j = np.cell a i (np.shape1 a - 1 - j).
Proof.
  intros Hrect Hi Hj. unfold np.cell, np.fliplr.
  rewrite !decide_True by lia. rewrite list_lookup_fmap.
  unfold np.shape0 in Hi.
  destruct (lookup_lt_is_Some_2 a (Z.to_nat i)) as [row Hrow]; [lia|].
  rewrite Hrow. simpl.
  assert (Z.of_nat (length row) = np.shape1 a) as Hlen.
  { unfold np.rectangular in Hrect. rewrite Forall_forall in Hrect.
    apply Hrect. by eapply list_elem_of_lookup_2. }
  rewrite reverse_lookup by lia. f_equal. lia.
Qed.

(** What [__count_lines] returns on a non-empty crop that is at least as
    wide as it is high. *)
Lemma erode_cell (src kernel : ndarray) (eroded : ndarray) (i j : Z) :
  cv2.erode src kernel = Return eroded →
  np.cell eroded i j
  = (λ _, foldr (λ '(di, dj) acc,
                   match np.cell src (i + di) (j + dj) with
                   | Some v => Z.min v acc
                   | None => acc
                   end)
                255 (cv2.offsets kernel)) <$> np.cell src i j.
Proof.
  unfold cv2.erode. case_decide; [done|]. intros [= <-].
  unfold np.cell. case_decide as Hij; [|done].
  rewrite list_lookup_imap.
  destruct (src !! Z.to_nat i) as [row|]; simpl; [|done].
  rewrite list_lookup_imap.
  destruct (row !! Z.to_nat j) as [v|]; simpl; [|done].
  by rewrite !Z2Nat.id by lia.
Qed.

Lemma erode_min_dark (src : ndarray) (i j : Z) (offsets : list (Z * Z)) :
  127 < foldr (λ '(di, dj) acc,
                 match np.cell src (i + di) (j + dj) with
                 | Some v => Z.min v acc
                 | None => acc
                 end)
              255 offsets
  ↔ existsb (λ '(di, dj),
               match np.cell src (i + di) (j + dj) with
               | Some v => bool_decide (v ≤ 127)
               | None => false
               end) offsets = false.
Proof.
  induction offsets as [|[di dj] offsets IH]; simpl; [done|].
  rewrite orb_false_iff, <- IH.
  destruct (np.cell src (i + di) (j + dj)) as [v|]; [|tauto].
  rewrite bool_decide_eq_false. lia.
Qed.

Lemma erode_threshold_cell (crop : ndarray) :
  0 < np.shape0 crop → 0 < np.shape1 crop →
  ∃ eroded,
    cv2.erode crop (np.ones 3 3) = Return eroded
    ∧ ∀ i j, is_Some (np.cell crop i j) →
        np.cell (cv2.threshold_binary eroded 127 255) i j
        = Some (if dark_nearby crop i j then 0 else 255).
Proof.
  intros H0 H1.
  destruct (cv2.erode crop (np.ones 3 3)) as [eroded|e] eqn:Herode.
  2: { unfold cv2.erode in Herode. rewrite decide_False in Herode by lia.
       done. }
  exists eroded. split; [done|]. intros i j [v Hv].
  unfold cv2.threshold_binary. rewrite cell_fmap.
  rewrite (erode_cell _ _ _ _ _ Herode), Hv. simpl. f_equal.
  change (cv2.offsets (np.ones 3 3))
    with [(-1, -1); (-1, 0); (-1, 1); (0, -1); (0, 0); (0, 1);
          (1, -1); (1, 0); (1, 1)].
  unfold dark_nearby.
  pose proof (erode_min_dark crop i j
    [(-1, -1); (-1, 0); (-1, 1); (0, -1); (0, 0); (0, 1);
     (1, -1); (1, 0); (1, 1)]) as Hdark.
  destruct (existsb _ _); case_decide; [|done|done|].
  - apply Hdark in H. done.
  - destruct Hdark as [_ Hdark]. by specialize (Hdark eq_refl).
Qed.

Lemma count_lines_crop (crop : ndarray) :
  np.rectangular crop → 0 < np.shape0 crop → np.shape0 crop ≤ np.shape1 crop →
  ∃ eroded main_diagonal secondary_diagonal,
    cv2.erode crop (np.ones 3 3) = Return eroded
    ∧ length <$> eroded = length <$> crop
    ∧ count_diagonal_lines (cv2.threshold_binary eroded 127 255)
      = Return main_diagonal
    ∧ count_diagonal_lines (np.fliplr (cv2.threshold_binary eroded 127 255))
      = Return secondary_diagonal
    ∧ count_lines crop
      = Return (if decide (main_diagonal ≤ secondary_diagonal)
                then (secondary_diagonal, "secondary_diagonal"%string)
                else (main_diagonal, "main_diagonal"%string)).
Proof.
  intros Hcrop H0 H1.
  destruct (erode_shape crop (np.ones 3 3)) as (eroded & Herode & Hlen);
    [lia..|].
  set (binary := cv2.threshold_binary eroded 127 255).
  assert (length <$> binary = length <$> crop) as Hbin.
  { unfold binary. by rewrite threshold_binary_shape. }
  destruct (shape_of_row_lengths binary crop Hbin) as (Hb0 & Hb1 & Hbr).
  destruct (count_diagonal_lines_total binary) as [main Hmain];
    [auto|lia|].
  assert (length <$> np.fliplr binary = length <$> crop) as Hflip.
  { by rewrite fliplr_shape. }
  destruct (shape_of_row_lengths (np.fliplr binary) crop Hflip)
    as (Hf0 & Hf1 & Hfr).
  destruct (count_diagonal_lines_total (np.fliplr binary)) as [sec Hsec];
    [auto|lia|].
  exists eroded, main, sec. do 4 (split; [done|]).
  unfold count_lines. rewrite Herode. cbn [mbind result_bind].
  fold binary. rewrite Hmain. cbn [mbind result_bind].
  by rewrite Hsec.
Qed.

(** C7. For every skeleton and every square region inside it, the ridge
    counter erodes and re-binarises the crop, which then holds 0 where the
    3 x 3 neighbourhood held a ridge value and 255 elsewhere; its count on
    that image is the number of ridge runs along the main diagonal, the
    cells [i, i], and its count on the mirror image the number of ridge runs
    along the secondary diagonal, the cells [i, S - 1 - i]; and it reports
    the secondary count as secondary whenever the main count is at most the
    secondary count, equal counts included, and the main count as main
    otherwise. *)
Theorem count_lines_tie_break (thin_image : ndarray) (a c S : Z) :
  np.rectangular thin_image →
  0 ≤ a → 0 ≤ c → 0 < S →
  a + S ≤ np.shape0 thin_image → c + S ≤ np.shape1 thin_image →
  let crop := np.slice2 thin_image a (a + S) c (c + S) in
  let main_diagonal := main_diagonal_count crop in
  let secondary_diagonal := secondary_diagonal_count crop in
  (∃ eroded,
     cv2.erode crop (np.ones 3 3) = Return eroded
     ∧ (∀ i j, 0 ≤ i < S → 0 ≤ j < S →
          np.cell (cv2.threshold_binary eroded 127 255) i j
          = Some (rebinarized crop i j))
     ∧ count_diagonal_lines (cv2.threshold_binary eroded 127 255)
       = Return main_diagonal
     ∧ count_diagonal_lines (np.fliplr (cv2.threshold_binary eroded 127 255))
       = Return secondary_diagonal)
  ∧ count_lines crop
    = Return (if decide (main_diagonal ≤ secondary_diagonal)
              then (secondary_diagonal, "secondary_diagonal"%string)
              else (main_diagonal, "main_diagonal"%string))
  ∧ (main_diagonal = secondary_diagonal →
     count_lines crop
     = Return (secondary_diagonal, "secondary_diagonal"%string)).
Proof.
  intros Hrect Ha Hc HS Hrows Hcols crop main_diagonal secondary_diagonal.
  destruct (slice2_shape thin_image a (a + S) c (c + S))
    as (H0 & H1 & Hcrop); [done|lia..|].
  fold crop in H0, H1, Hcrop.
  destruct (erode_threshold_cell crop) as (eroded & Herode & Hcell);
    [lia..|].
  destruct (erode_shape crop (np.ones 3 3)) as (eroded' & Herode' & Hlen);
    [lia..|].
  assert (eroded' = eroded) as -> by congruence.
  set (binary := cv2.threshold_binary eroded 127 255) in *.
  assert (length <$> binary = length <$> crop) as Hbin.
  { unfold binary. by rewrite threshold_binary_shape. }
  destruct (shape_of_row_lengths binary crop Hbin) as (Hb0 & Hb1 & Hbr).
  specialize (Hbr Hcrop).
  assert (∀ i j, 0 ≤ i < S → 0 ≤ j < S →
            np.cell binary i j = Some (rebinarized crop i j)) as Hcells.
  { intros i j Hi Hj. apply Hcell, cell_in_bounds; [done|lia..]. }
  assert (∀ i j, rebinarized crop i j = 0 ∨ rebinarized crop i j = 255)
    as Hvalues.
  { intros i j. unfold rebinarized. destruct (dark_nearby crop i j); auto. }
  assert (count_diagonal_lines binary = Return main_diagonal) as Hmain.
  { rewrite (count_diagonal_lines_cells binary (λ i, rebinarized crop i i)).
    - unfold main_diagonal, main_diagonal_count. by rewrite Hb0.
    - intros i Hi. split; [apply Hcells; lia|apply Hvalues]. }
  assert (count_diagonal_lines (np.fliplr binary) = Return secondary_diagonal)
    as Hsec.
  { assert (np.shape0 (np.fliplr binary) = np.shape0 crop) as Hf0.
    { apply shape_of_row_lengths. by rewrite fliplr_shape. }
    rewrite (count_diagonal_lines_cells (np.fliplr binary)
               (λ i, rebinarized crop i (np.shape1 crop - 1 - i))).
    - unfold secondary_diagonal, secondary_diagonal_count. by rewrite Hf0.
    - intros i Hi. split; [|apply Hvalues].
      rewrite cell_fliplr by (done || lia). rewrite Hb1.
      apply Hcells; lia. }
  assert (count_lines crop
          = Return (if decide (main_diagonal ≤ secondary_diagonal)
                    then (secondary_diagonal, "secondary_diagonal"%string)
                    else (main_diagonal, "main_diagonal"%string))) as Hcount.
  { unfold count_lines. rewrite Herode. cbn [mbind result_bind].
    fold binary. rewrite Hmain. cbn [mbind result_bind].
    by rewrite Hsec. }
  split; [by exists eroded|]. split; [done|].
  intros Heq. rewrite Hcount. by rewrite decide_True by lia.
Qed.

(** ** The store *)

Lemma preserves_bind {A B} I (m : M A) (f : A → M B) :
  preserves I m → (∀ a, preserves I (f a)) → preserves I (m ≫= f).
Proof.
  intros Hm Hf h Hh. specialize (Hm h Hh).
  unfold mbind, M_bind. destruct (m h) as [[a|e] h']; simpl in *; [|done].
  by apply Hf.
Qed.

Lemma preserves_ret {A} I (a : A) : preserves I (mret a : M A).
Proof. by intros h Hh. Qed.

Lemma preserves_lift {A} I (r : result A) : preserves I (lift r).
Proof. by intros h Hh. Qed.

Lemma preserves_read_gray I l : preserves I (read_gray l).
Proof. by intros h Hh. Qed.

Lemma preserves_alloc h0 out v :
  preserves (annotating h0 out) (alloc v).
Proof.
  intros h [Hsub [c Hc]]. unfold alloc. simpl.
  pose proof (is_fresh (dom h)) as Hfresh.
  apply not_elem_of_dom in Hfresh. split.
  - etrans; [exact Hsub|]. by apply insert_subseteq.
  - exists c. rewrite lookup_insert_ne; [done|]. congruence.
Qed.

Lemma preserves_draw h0 out f :
  h0 !! out = None → preserves (annotating h0 out) (draw out f).
Proof.
  intros Hout h [Hsub [c Hc]]. unfold draw. rewrite Hc. simpl. split.
  - by apply insert_subseteq_r.
  - exists (f c). by rewrite lookup_insert_eq.
Qed.

Lemma returns_bind {A B} (m : M A) (f : A → M B) P :
  (∀ a, returns (f a) P) → returns (m ≫= f) P.
Proof.
  intros Hf h b. unfold mbind, M_bind.
  destruct (m h) as [[a|e] h']; [apply Hf|done].
Qed.

Lemma returns_ret {A} (a : A) (P : A → Prop) : P a → returns (mret a : M A) P.
Proof. intros Ha h b [= <-]. done. Qed.

Lemma M_bind_Return {A B} (m : M A) (f : A → M B) h a h' :
  m h = (Return a, h') → (m ≫= f) h = f a h'.
Proof. intros Hm. unfold mbind, M_bind. by rewrite Hm. Qed.

Lemma succeeds_bind {A B} I (m : M A) (f : A → M B) :
  succeeds I m → (∀ a, succeeds I (f a)) → succeeds I (m ≫= f).
Proof.
  intros Hm Hf h Hh. destruct (Hm h Hh) as (a & Ha & Hh').
  unfold mbind, M_bind. destruct (m h) as [r h']. simpl in *. subst r.
  by apply Hf.
Qed.

Lemma succeeds_ret {A} I (a : A) : succeeds I (mret a : M A).
Proof. intros h Hh. by exists a. Qed.

Lemma succeeds_draw h0 out f :
  h0 !! out = None → succeeds (annotating h0 out) (draw out f).
Proof.
  intros Hout h Hh. pose proof (preserves_draw h0 out f Hout h Hh) as Hh'.
  destruct Hh as [_ [c Hc]]. unfold draw in *. rewrite Hc in *. by exists ().
Qed.

Section annotator_properties.

Variable cv2_line : canvas → Z * Z → Z * Z → Z * Z * Z → Z → canvas.
Variable cv2_putText : canvas → string → Z * Z → Z * Z * Z → Z → canvas.
Variable cv2_rectangle : canvas → Z * Z → Z * Z → Z * Z * Z → Z → canvas.

Lemma preserves_draw_diagonal h0 out si sj ei ej n B ty tx color :
  h0 !! out = None →
  preserves (annotating h0 out)
    (draw_diagonal cv2_line cv2_putText out si sj ei ej n B ty tx color).
Proof.
  intros Hout. unfold draw_diagonal.
  repeat (apply preserves_bind; [|intros ?]); by apply preserves_draw.
Qed.

Lemma succeeds_draw_diagonal h0 out si sj ei ej n B ty tx color :
  h0 !! out = None →
  succeeds (annotating h0 out)
    (draw_diagonal cv2_line cv2_putText out si sj ei ej n B ty tx color).
Proof.
  intros Hout. unfold draw_diagonal.
  repeat (apply succeeds_bind; [|intros ?]); by apply succeeds_draw.
Qed.

Lemma draw_Return (l : positive) (f : canvas → canvas)
    (h : gmap positive mat) (c : canvas) :
  h !! l = Some (Color c) →
  draw l f h = (Return (), <[l := Color (f c)]> h).
Proof. intros Hl. unfold draw. by rewrite Hl. Qed.

Lemma draw_diagonal_Return (image : positive)
    (si sj ei ej n B ty tx : Z) (color : Z * Z * Z)
    (h : gmap positive mat) (c : canvas) :
  h !! image = Some (Color c) →
  draw_diagonal cv2_line cv2_putText image si sj ei ej n B ty tx color h
  = (Return (),
     <[image := Color
         (cv2_putText
            (cv2_putText (cv2_line c (sj, si) (ej, ei) (0, 0, 255) 1)
                         (" " +:+ pretty n) (ty, tx - B) color 1)
            "ridges" (ty, tx) color 1)]> h).
Proof.
  intros Hc. unfold draw_diagonal.
  erewrite M_bind_Return; [|by apply draw_Return].
  erewrite M_bind_Return; [|apply draw_Return; by rewrite lookup_insert_eq].
  erewrite draw_Return; [|by rewrite lookup_insert_eq].
  by rewrite !insert_insert_eq.
Qed.

(** C8. Whatever the region is and whether the annotator returns or raises,
    every array of the initial store is unchanged afterwards, the input image
    and the skeleton among them; an image the annotator returns is a new
    three-channel array; without a region it is exactly the three-channel
    conversion of the non-empty input, nothing drawn on it; and for a square
    region inside the skeleton the annotator returns the three-channel
    conversion of the input with exactly the annotation drawn on it: the
    line along the diagonal the ridge counter chose, its count, the label
    and the outline of the region. *)
Theorem draw_ridges_count_on_region_frame
    (h : gmap positive mat) (region : option (list Z))
    (input_image thin_image : positive) (block_size : Z) :
  let run := draw_ridges_count_on_region cv2_line cv2_putText cv2_rectangle
               region input_image thin_image block_size h in
  h ⊆ snd run
  ∧ (∀ output_image, fst run = Return output_image →
       (output_image ∉ dom h)
       ∧ ∃ drawn, snd run !! output_image = Some (Color drawn))
  ∧ (∀ source, h !! input_image = Some (Gray source) →
       0 < np.shape0 source → 0 < np.shape1 source → region = None →
       ∃ output_image,
         fst run = Return output_image
         ∧ snd run !! output_image
           = Some (Color (cv2.gray_to_rgb source)))
  ∧ (∀ source skeleton a c S,
       h !! input_image = Some (Gray source) →
       0 < np.shape0 source → 0 < np.shape1 source →
       h !! thin_image = Some (Gray skeleton) → np.rectangular skeleton →
       0 ≤ a → 0 ≤ c → 0 < S →
       a + S ≤ np.shape0 skeleton → c + S ≤ np.shape1 skeleton →
       region = Some [a; a + S; c; c + S] →
       ∃ output_image line_count line_type,
         count_lines (np.slice2 skeleton a (a + S) c (c + S))
         = Return (line_count, line_type)
         ∧ fst run = Return output_image
         ∧ snd run !! output_image
           = Some (Color (annotated cv2_line cv2_putText cv2_rectangle
                            (cv2.gray_to_rgb source) a (a + S) c (c + S)
                            line_count line_type block_size))).
Proof.
  intros run.
  destruct (h !! input_image) as [[source|?]|] eqn:Hin;
    [|assert (run = (Raise TypeError, h)) as ->
        by (unfold run, draw_ridges_count_on_region, mbind, M_bind,
              read_gray; by rewrite Hin);
      simpl; split; [done|];
      split; [intros ? [=]|split; [intros ? [=]|intros ? ? ? ? ? [=]]]..].
  set (copy := fresh (dom h)).
  assert (h !! copy = None) as Hcopy.
  { apply not_elem_of_dom, is_fresh. }
  set (h1 := <[copy := Gray source]> h).
  assert (h ⊆ h1) as Hh1 by (by apply insert_subseteq).
  destruct (decide (np.shape0 source = 0 ∨ np.shape1 source = 0))
    as [Hempty|Hfull].
  { assert (run = (Raise CvError, h1)) as ->.
    { unfold run, draw_ridges_count_on_region.
      unfold mbind at 1, M_bind at 1, read_gray at 1. rewrite Hin.
      unfold mbind at 1, M_bind at 1, alloc at 1. fold copy. fold h1.
      unfold mbind at 1, M_bind at 1, read_gray at 1.
      unfold h1 at 1. rewrite lookup_insert_eq. fold h1.
      unfold mbind at 1, M_bind at 1, lift at 1, cv2.cvtColor_GRAY2RGB.
      by rewrite decide_True by done. }
    simpl. split; [done|]. split; [intros ? [=]|].
    split; [intros ? [= <-] ? ?; lia|intros ? ? ? ? ? [= <-] ? ?; lia]. }
  set (converted := cv2.gray_to_rgb source).
  set (out := fresh (dom h1)).
  assert (h1 !! out = None) as Hout1.
  { apply not_elem_of_dom, is_fresh. }
  assert (h !! out = None) as Hout.
  { eapply lookup_weaken_None; done. }
  set (h2 := <[out := Color converted]> h1).
  assert (annotating h out h2) as Hinv.
  { split.
    - etrans; [exact Hh1|]. by apply insert_subseteq.
    - exists converted. unfold h2. by rewrite lookup_insert_eq. }
  eassert (run = _) as Hrun.
  { unfold run, draw_ridges_count_on_region.
    unfold mbind at 1, M_bind at 1, read_gray at 1. rewrite Hin.
    unfold mbind at 1, M_bind at 1, alloc at 1. fold copy. fold h1.
    unfold mbind at 1, M_bind at 1, read_gray at 1.
    unfold h1 at 1. rewrite lookup_insert_eq. fold h1.
    unfold mbind at 1, M_bind at 1, lift at 1, cv2.cvtColor_GRAY2RGB.
    rewrite decide_False by done. fold converted.
    unfold mbind at 1, M_bind at 1, alloc at 1. fold out. fold h2.
    reflexivity. }
  clearbody run. subst run.
  destruct region as [region|].
  - match goal with
    | |- context [(?m h2).1] =>
        assert (preserves (annotating h out) m) as Hpres;
        [|assert (returns m (λ l, l = out)) as Hret]
    end.
    { repeat (apply preserves_bind; [|intros ?]);
        repeat case_match;
        repeat (apply preserves_bind; [|intros ?]);
        repeat case_decide;
        auto using preserves_ret, preserves_lift, preserves_read_gray,
          preserves_alloc, preserves_draw, preserves_draw_diagonal.
      }
    { repeat (apply returns_bind; intros ?); repeat case_match;
        repeat (apply returns_bind; intros ?); by apply returns_ret. }
    destruct (Hpres h2 Hinv) as [Hsub Hcolor].
    split; [done|]. split; [|split; [done|]].
    { intros l Hl. apply Hret in Hl as ->.
      split; [by apply not_elem_of_dom|done]. }
    intros source' skeleton a c S [= <-] _ _ Hthin Hrect Ha Hc HS Hrows Hcols
      [= ->].
    destruct Hinv as [Hsub2 _].
    assert (h2 !! out = Some (Color converted)) as Hout2
      by (unfold h2; by rewrite lookup_insert_eq).
    erewrite M_bind_Return;
      [|unfold read_gray; by rewrite (lookup_weaken _ _ _ _ Hthin Hsub2)].
    do 4 (erewrite M_bind_Return; [|reflexivity]).
    set (region_copy := fresh (dom h2)).
    assert (h2 !! region_copy = None) as Hfresh.
    { apply not_elem_of_dom, is_fresh. }
    set (crop := np.slice2 skeleton a (a + S) c (c + S)).
    set (h3 := <[region_copy := Gray crop]> h2).
    rewrite (M_bind_Return (alloc _) _ h2 region_copy h3); [|reflexivity].
    assert (h3 !! out = Some (Color converted)) as Hout3.
    { unfold h3. rewrite lookup_insert_ne; [done|]. congruence. }
    erewrite M_bind_Return;
      [|unfold read_gray, h3; by rewrite lookup_insert_eq].
    destruct (slice2_shape skeleton a (a + S) c (c + S))
      as (H0 & H1 & Hcrop); [done|lia..|].
    destruct (count_lines_crop crop)
      as (? & main & sec & _ & _ & _ & _ & Hcount);
      [done|unfold crop; lia..|].
    erewrite M_bind_Return; [|unfold lift; by rewrite Hcount].
    destruct (decide (main ≤ sec)) as [Hle|Hgt]; cbv beta iota zeta.
    + exists out, sec, "secondary_diagonal"%string. split; [done|].
      rewrite decide_False by done. rewrite decide_True by done.
      erewrite M_bind_Return; [|by apply draw_diagonal_Return].
      erewrite M_bind_Return;
        [|apply draw_Return; by rewrite lookup_insert_eq].
      split; [done|]. unfold mret, M_ret. cbn [snd].
      by rewrite lookup_insert_eq.
    + exists out, main, "main_diagonal"%string. split; [done|].
      rewrite decide_True by done.
      erewrite M_bind_Return; [|by apply draw_diagonal_Return].
      erewrite M_bind_Return;
        [|apply draw_Return; by rewrite lookup_insert_eq].
      split; [done|]. unfold mret, M_ret. cbn [snd].
      by rewrite lookup_insert_eq.
  - simpl. destruct Hinv as [Hsub Hcolor].
    split; [done|]. split.
    + intros l [= <-]. split; [by apply not_elem_of_dom|done].
    + split; [|intros ? ? ? ? ? _ _ _ _ _ _ _ _ _ _ [=]].
      intros source' [= <-] _ _ _. exists out. split; [done|].
      unfold h2. by rewrite lookup_insert_eq.
Qed.

End annotator_properties.

(** ** Worked examples *)

Lemma full_rectangular (n m : nat) (v : Z) : np.rectangular (np.full n m v).
Proof.
  unfold np.rectangular, np.full. destruct n as [|n]; [constructor|].
  apply Forall_forall. intros row ->%elem_of_replicate_inv. simpl.
  by rewrite !length_replicate.
Qed.

Lemma full_binary (n m : nat) : binary_mask (np.full n m 1).
Proof.
  unfold binary_mask, np.full. apply Forall_forall.
  intros row ->%elem_of_replicate_inv. apply Forall_forall.
  intros v ->%elem_of_replicate_inv. by right.
Qed.

(** C1 at a skeleton with one bifurcation. *)
Lemma calculate_minutiae_weights_spec_witness :
  np.rectangular skeleton_fork
  ∧ ∃ weights,
      calculate_minutiae_weights skeleton_fork = Return weights
      ∧ np.shape0 weights = 4 ∧ np.shape1 weights = 5
      ∧ np.rectangular weights
      ∧ ∀ r c, 0 ≤ r < 4 → 0 ≤ c < 5 →
          np.getitem weights r c = Return (expected_weight skeleton_fork r c).
Proof.
  assert (np.rectangular skeleton_fork) as Hrect by (repeat constructor).
  split; [exact Hrect|].
  exact (calculate_minutiae_weights_spec skeleton_fork Hrect).
Defined.

(** C2 at a 10 x 10 image with a full mask and block size 1. *)
Lemma get_best_region_full_validity_witness :
  ∃ a c,
    [2; 10; 2; 10] = [a; a + 1 * 8; c; c + 1 * 8]
    ∧ np.sum (np.slice2 (np.full 10 10 1) a (a + 1 * 8) c (c + 1 * 8))
      = 1 * 8 * (1 * 8)
    ∧ (binary_mask (np.full 10 10 1) →
       ∀ i j, a ≤ i < a + 1 * 8 → c ≤ j < c + 1 * 8 →
         np.cell (np.full 10 10 1) i j = Some 1).
Proof.
  assert (1 ≠ 0) as HB by lia.
  apply (proj1 (get_best_region_full_validity
                  (np.full 10 10 255) (np.full 10 10 0) (np.full 10 10 1) 1 HB)).
  vm_compute. reflexivity.
Defined.

(** C3, the wording of the specification taken for every tying pair: the
    windows (1, 1) and (1, 2) are accepted and tie at weight 2, yet the
    selector returns neither of them but the lighter window (2, 2). *)
Lemma get_best_region_tie_not_minimal :
  accepted (np.full 10 10 1) 1 (1, 1) ∧ accepted (np.full 10 10 1) 1 (1, 2)
  ∧ window_sum weights_top 1 (1, 1) = window_sum weights_top 1 (1, 2)
  ∧ get_best_region (np.full 10 10 255) weights_top 1 (np.full 10 10 1)
    = Return (Some (region_of 1 (2, 2)))
  ∧ region_of 1 (2, 2) ≠ region_of 1 (1, 2).
Proof. vm_compute. repeat split; congruence. Qed.

(** C3 at two tying windows of an all-zero weight image. *)
Lemma get_best_region_tie_break_witness :
  get_best_region (np.full 10 10 255) (np.full 10 10 0) 1 (np.full 10 10 1)
  ≠ Return (Some (region_of 1 (1, 1))).
Proof.
  assert (1 ≠ 0) as HB by lia.
  assert (candidate (np.full 10 10 255) (1, 1)) as Hc1 by (vm_compute; intuition congruence).
  assert (candidate (np.full 10 10 255) (1, 2)) as Hc2 by (vm_compute; intuition congruence).
  assert (accepted (np.full 10 10 1) 1 (1, 1)) as Ha1 by (vm_compute; reflexivity).
  assert (accepted (np.full 10 10 1) 1 (1, 2)) as Ha2 by (vm_compute; reflexivity).
  assert (scanned_before (1, 1) (1, 2)) as Hb by (right; simpl; lia).
  assert (window_sum (np.full 10 10 0) 1 (1, 1)
          = window_sum (np.full 10 10 0) 1 (1, 2)) as Ht by (vm_compute; reflexivity).
  exact (proj1 (get_best_region_tie_break
                  (np.full 10 10 255) (np.full 10 10 0) (np.full 10 10 1) 1
                  (1, 1) (1, 2) HB Hc1 Hc2 Ha1 Ha2 Hb Ht)).
Defined.

(** C4, the specification's count for an all-ridge diagonal that no
    background cell precedes: the image holds no background cell at all, and
    the count is 1, not 0. *)
Lemma count_diagonal_lines_all_ridge_unpreceded :
  (λ i, np.cell (np.full 3 3 0) i i) <$> [0; 1; 2] = [Some 0; Some 0; Some 0]
  ∧ Forall (Forall (λ v, v ≠ 255)) (np.full 3 3 0)
  ∧ count_diagonal_lines (np.full 3 3 0) = Return 1
  ∧ count_diagonal_lines (np.full 3 3 0) ≠ Return 0.
Proof.
  split; [reflexivity|]. split; [repeat constructor; discriminate|].
  split; [reflexivity|]. vm_compute. discriminate.
Qed.

(** C4 at a diagonal of one background cell and two ridge cells. *)
Lemma count_diagonal_lines_background_then_ridge_witness :
  count_diagonal_lines [[255; 0; 0]; [0; 0; 0]; [0; 0; 0]] = Return 1.
Proof.
  apply (count_diagonal_lines_background_then_ridge
           [[255; 0; 0]; [0; 0; 0]; [0; 0; 0]] 1).
  - vm_compute. intuition congruence.
  - intros i Hi. assert (i = 0) as -> by lia. reflexivity.
  - intros i Hi. change (np.shape0 _) with 3 in Hi.
    assert (i = 1 ∨ i = 2) as [-> | ->] by lia; reflexivity.
Defined.

(** C5, the ranges of the specification: on a 22 x 18 skeleton with block
    size 2 the selector returns the window of column block index 3, past
    cols / B - 7 = 2. *)
Lemma get_best_region_origin_outside_claimed_range :
  get_best_region (np.full 22 18 255) (np.full 22 18 0) 2 (np.full 22 18 1)
  = Return (Some (region_of 2 (3, 1)))
  ∧ ¬ claimed_candidate (np.full 22 18 255) 2 (3, 1).
Proof.
  split; [vm_compute; reflexivity|].
  unfold claimed_candidate. vm_compute. intuition.
Qed.

(** C5 at that 22 x 18 skeleton. *)
Lemma get_best_region_scan_ranges_witness :
  ∃ col row,
    1 ≤ col < np.shape1 (np.full 22 18 255) - 7
    ∧ 1 ≤ row < np.shape0 (np.full 22 18 255) - 7
    ∧ [6; 22; 2; 18] = [col * 2; col * 2 + 2 * 8; row * 2; row * 2 + 2 * 8].
Proof.
  assert (2 ≠ 0) as HB by lia.
  apply (proj1 (proj2 (get_best_region_scan_ranges
                  (np.full 22 18 255) (np.full 22 18 0) (np.full 22 18 1) 2 HB))).
  vm_compute. reflexivity.
Defined.

(** C6, the window the specification's scenario names: the window scanned
    first is fully valid, and it is not the one returned. *)
Lemma end_to_end_first_window_not_selected :
  head (scan_order (np.full 32 32 255)) = Some (1, 1)
  ∧ accepted (np.full 32 32 1) 1 (1, 1)
  ∧ get_best_region (np.full 32 32 255) (np.full 32 32 0) 1 (np.full 32 32 1)
    ≠ Return (Some (region_of 1 (1, 1))).
Proof.
  split; [reflexivity|]. split; [vm_compute; reflexivity|].
  vm_compute. congruence.
Qed.

(** C6. On the 32 x 32 all-background skeleton with a full-validity mask
    and block size 1, the weight image is all zeros, the selector returns the
    window scanned last, rows 24 to 32 and columns 24 to 32, every window
    being fully valid at total weight 0, and the ridge counter on that region
    returns 0 on the secondary diagonal. *)
Theorem end_to_end_all_background :
  calculate_minutiae_weights (np.full 32 32 255) = Return (np.full 32 32 0)
  ∧ last (scan_order (np.full 32 32 255)) = Some (24, 24)
  ∧ get_best_region (np.full 32 32 255) (np.full 32 32 0) 1 (np.full 32 32 1)
    = Return (Some [24; 32; 24; 32])
  ∧ count_lines (np.slice2 (np.full 32 32 255) 24 32 24 32)
    = Return (0, "secondary_diagonal"%string).
Proof. repeat split; vm_compute; reflexivity. Qed.

(** C7 at a skeleton whose only ridge pixel lies on the main diagonal: one
    ridge run on the main diagonal, none on the secondary one. *)
Lemma count_lines_tie_break_witness :
  count_lines (np.slice2 skeleton_corner 0 (0 + 4) 0 (0 + 4))
  = Return (1, "main_diagonal"%string).
Proof.
  apply (proj1 (proj2 (count_lines_tie_break skeleton_corner 0 0 4
                  ltac:(repeat constructor) ltac:(lia) ltac:(lia) ltac:(lia)
                  ltac:(vm_compute; congruence)
                  ltac:(vm_compute; congruence)))).
Defined.

(** C9, a mask larger than the skeleton: nothing is raised, and a region
    is returned. *)
Lemma get_best_region_mismatched_shapes :
  np.shape0 (np.full 12 12 1) ≠ np.shape0 (np.full 10 10 255)
  ∧ get_best_region (np.full 10 10 255) (np.full 10 10 0) 1 (np.full 12 12 1)
    = Return (Some [2; 10; 2; 10]).
Proof. split; [vm_compute; congruence|vm_compute; reflexivity]. Qed.

(** C9 at the same mismatched shapes. *)
Lemma get_best_region_no_shape_check_witness :
  ∃ r, get_best_region (np.full 10 10 255) (np.full 10 10 0) 1 (np.full 12 12 1)
       = Return r.
Proof.
  assert (1 ≠ 0) as HB by lia.
  exact (proj1 (get_best_region_no_shape_check
                  (np.full 10 10 255) (np.full 10 10 0) (np.full 12 12 1) 1 HB)).
Defined.

(** C10 at a 10 x 10 image with a full mask. *)
Lemma get_best_region_in_bounds_witness :
  10 - 2 = 8 * 1 ∧ 10 - 2 = 8 * 1
  ∧ 0 ≤ 2 ∧ 10 ≤ np.shape0 (np.full 10 10 255)
  ∧ 0 ≤ 2 ∧ 10 ≤ np.shape1 (np.full 10 10 255).
Proof.
  assert (1 ≠ 0) as HB by lia.
  apply (proj1 (get_best_region_in_bounds
                  (np.full 10 10 255) (np.full 10 10 0) (np.full 10 10 1) 1
                  HB (full_binary 10 10) (full_rectangular 10 10 1)
                  eq_refl eq_refl)).
  vm_compute. reflexivity.
Defined.

(** C8 at a store of one image, without a region, and at a region whose
    main diagonal crosses one ridge. *)
Lemma draw_ridges_count_on_region_frame_witness :
  (let run := draw_ridges_count_on_region (λ c _ _ _ _, c) (λ c _ _ _ _, c)
                (λ c _ _ _ _, c) None 1%positive 1%positive 15 store_one in
   ∃ output_image,
     fst run = Return output_image
     ∧ snd run !! output_image
       = Some (Color (cv2.gray_to_rgb [[1; 2]; [3; 4]])))
  ∧ (let run := draw_ridges_count_on_region paint_line paint_text paint_line
                  (Some [0; 0 + 4; 0; 0 + 4]) 1%positive 2%positive 1
                  store_region in
     ∃ output_image,
       fst run = Return output_image
       ∧ snd run !! output_image
         = Some (Color (annotated paint_line paint_text paint_line
                          (cv2.gray_to_rgb (np.full 4 4 7))
                          0 (0 + 4) 0 (0 + 4) 1 "main_diagonal" 1))).
Proof.
  split.
  - apply (proj1 (proj2 (proj2 (draw_ridges_count_on_region_frame
             (λ c _ _ _ _, c) (λ c _ _ _ _, c) (λ c _ _ _ _, c)
             store_one None 1%positive 1%positive 15)))).
    + reflexivity.
    + vm_compute. reflexivity.
    + vm_compute. reflexivity.
    + reflexivity.
  - destruct (proj2 (proj2 (proj2 (draw_ridges_count_on_region_frame
               paint_line paint_text paint_line store_region
               (Some [0; 0 + 4; 0; 0 + 4]) 1%positive 2%positive 1)))
               (np.full 4 4 7) skeleton_corner 0 0 4)
      as (output_image & line_count & line_type & Hcount & Hrun & Hdrawn).
    + reflexivity.
    + vm_compute. reflexivity.
    + vm_compute. reflexivity.
    + reflexivity.
    + repeat constructor.
    + lia.
    + lia.
    + lia.
    + vm_compute. congruence.
    + vm_compute. congruence.
    + reflexivity.
    + assert (count_lines (np.slice2 skeleton_corner 0 (0 + 4) 0 (0 + 4))
              = Return (1, "main_diagonal"%string)) as Hone
        by (vm_compute; reflexivity).
      rewrite Hone in Hcount. injection Hcount as <- <-.
      exists output_image. split; [exact Hrun|exact Hdrawn].
Defined.

(** * Further properties *)

(** ** Neighbourhoods *)

Lemma ridge_01 (image : ndarray) (r c : Z) :
  ridge image r c = 0 ∨ ridge image r c = 1.
Proof.
  unfold ridge. destruct (np.cell image r c) as [v|]; [|by left].
  case_decide; auto.
Qed.

Lemma crossing_cases (a1 a2 a3 a4 a5 a6 a7 a8 : Z) :
  a1 = 0 ∨ a1 = 1 → a2 = 0 ∨ a2 = 1 → a3 = 0 ∨ a3 = 1 → a4 = 0 ∨ a4 = 1 →
  a5 = 0 ∨ a5 = 1 → a6 = 0 ∨ a6 = 1 → a7 = 0 ∨ a7 = 1 → a8 = 0 ∨ a8 = 1 →
  let n := a1 + a2 + a3 + a4 + a5 + a6 + a7 + a8 in
  let cn := consecutive_differences [a1; a2; a3; a4; a5; a6; a7; a8; a1]
            `div` 2 in
  (n = 1 → cn = 1) ∧ (cn = 3 → 3 ≤ n ≤ 5) ∧ (cn = 1 → 1 ≤ n ≤ 7).
Proof.
  intros [-> | ->] [-> | ->] [-> | ->] [-> | ->]
         [-> | ->] [-> | ->] [-> | ->] [-> | ->];
    vm_compute; (split; [|split]); intros H;
    first [ discriminate H | done | split; discriminate ].
Qed.

(** X1. An interior ridge pixel of a skeleton that has exactly one ridge
    pixel among its eight neighbours is classified as a termination. *)
Theorem detect_minutiae_single_neighbour (image : ndarray) (r c : Z) :
  np.rectangular image → interior image r c →
  ridge image r c = 1 → ridge_neighbours image r c = 1 →
  detect_minutiae (np.eq_int8 image 0) r c = Return "termination"%string.
Proof.
  intros Hrect Hint Hridge Hone.
  rewrite detect_minutiae_interior by done. f_equal.
  unfold classification. rewrite decide_True by done.
  destruct (crossing_cases
    (ridge image (r - 1) (c - 1)) (ridge image (r - 1) c)
    (ridge image (r - 1) (c + 1)) (ridge image r (c + 1))
    (ridge image (r + 1) (c + 1)) (ridge image (r + 1) c)
    (ridge image (r + 1) (c - 1)) (ridge image r (c - 1)))
    as (Hsingle & _); try apply ridge_01.
  unfold crossing_number, ring. by rewrite (Hsingle Hone).
Qed.

(** X2. At an interior pixel of a skeleton, [__detect_minutiae] answers
    "bifurcation" only at a ridge pixel with three to five ridge pixels
    among its eight neighbours, and "termination" only at a ridge pixel
    with one to seven of them. *)
Theorem detect_minutiae_neighbour_counts (image : ndarray) (r c : Z) :
  np.rectangular image → interior image r c →
  (detect_minutiae (np.eq_int8 image 0) r c = Return "bifurcation"%string →
   ridge image r c = 1 ∧ 3 ≤ ridge_neighbours image r c ≤ 5)
  ∧ (detect_minutiae (np.eq_int8 image 0) r c = Return "termination"%string →
     ridge image r c = 1 ∧ 1 ≤ ridge_neighbours image r c ≤ 7).
Proof.
  intros Hrect Hint. rewrite detect_minutiae_interior by done.
  unfold classification.
  destruct (decide (ridge image r c = 1)) as [Hridge|_]; [|by split].
  destruct (crossing_cases
    (ridge image (r - 1) (c - 1)) (ridge image (r - 1) c)
    (ridge image (r - 1) (c + 1)) (ridge image r (c + 1))
    (ridge image (r + 1) (c + 1)) (ridge image (r + 1) c)
    (ridge image (r + 1) (c - 1)) (ridge image r (c - 1)))
    as (_ & Hthree & Hone); try apply ridge_01.
  fold (ring image r c) in Hthree, Hone.
  fold (crossing_number image r c) in Hthree, Hone.
  fold (ridge_neighbours image r c) in Hthree, Hone.
  destruct (decide (crossing_number image r c = 1)) as [H1|H1].
  { split; [intros [=]|]. auto. }
  destruct (decide (crossing_number image r c = 3)) as [H3|H3].
  { split; [|intros [=]]. auto. }
  split; intros [=].
Qed.

(** ** Indices at the border *)

Lemma index_cases {A} (l : list A) (i : Z) :
  py.index l i = Raise IndexError ∨ ∃ x, py.index l i = Return x.
Proof.
  unfold py.index, py.norm_index.
  repeat case_decide; cbn [mbind result_bind]; auto;
    match goal with |- context [l !! ?k] => destruct (l !! k) end; eauto.
Qed.

Lemma index_wraps {A} (l : list A) (i : Z) :
  - length l ≤ i < length l → ∃ x, py.index l i = Return x.
Proof.
  intros Hi. unfold py.index, py.norm_index.
  destruct (decide (0 ≤ i < length l)) as [Hpos|Hneg]; cbn [mbind result_bind].
  - destruct (lookup_lt_is_Some_2 l (Z.to_nat i)) as [x ->]; [lia|eauto].
  - rewrite decide_True by lia. cbn [mbind result_bind].
    destruct (lookup_lt_is_Some_2 l (Z.to_nat (length l + i))) as [x ->];
      [lia|eauto].
Qed.

Lemma index_past_end {A} (l : list A) (i : Z) :
  length l ≤ i → py.index l i = Raise IndexError.
Proof.
  intros Hi. unfold py.index, py.norm_index.
  by rewrite !decide_False by lia.
Qed.

Lemma getitem_cases (a : ndarray) (i j : Z) :
  np.getitem a i j = Raise IndexError ∨ ∃ v, np.getitem a i j = Return v.
Proof.
  unfold np.getitem. destruct (index_cases a i) as [-> | [row ->]];
    cbn [mbind result_bind]; [auto|apply index_cases].
Qed.

Lemma getitem_wraps (a : ndarray) (i j : Z) :
  np.rectangular a →
  - np.shape0 a ≤ i < np.shape0 a → - np.shape1 a ≤ j < np.shape1 a →
  ∃ v, np.getitem a i j = Return v.
Proof.
  intros Hrect Hi Hj. unfold np.getitem.
  destruct (index_wraps a i Hi) as [row Hrow]. rewrite Hrow.
  cbn [mbind result_bind]. apply index_wraps.
  assert (row ∈ a) as Hin.
  { unfold py.index in Hrow.
    destruct (py.norm_index (length a) i) as [k|]; [|done].
    cbn [mbind result_bind] in Hrow.
    destruct (a !! k) as [row'|] eqn:E; [|done].
    simplify_eq. by eapply list_elem_of_lookup_2. }
  unfold np.rectangular in Hrect. rewrite Forall_forall in Hrect.
  rewrite (Hrect row Hin). done.
Qed.

Lemma getitem_past_end (a : ndarray) (i j : Z) :
  np.rectangular a → np.shape0 a ≤ i ∨ np.shape1 a ≤ j →
  np.getitem a i j = Raise IndexError.
Proof.
  intros Hrect Hout. unfold np.getitem.
  destruct (index_cases a i) as [-> | [row Hrow]]; [done|].
  rewrite Hrow. cbn [mbind result_bind].
  destruct Hout as [Hi|Hj].
  - rewrite index_past_end in Hrow by done. done.
  - apply index_past_end.
    assert (row ∈ a) as Hin.
    { unfold py.index in Hrow.
      destruct (py.norm_index (length a) i) as [k|]; [|done].
      cbn [mbind result_bind] in Hrow.
      destruct (a !! k) as [row'|] eqn:E; [|done].
      simplify_eq. by eapply list_elem_of_lookup_2. }
    unfold np.rectangular in Hrect. rewrite Forall_forall in Hrect.
    rewrite (Hrect row Hin). done.
Qed.

Lemma mapM_Raise {A B} (f : A → result B) (l : list A) (e : exn) :
  (∀ x, x ∈ l → f x = Raise e ∨ ∃ y, f x = Return y) →
  (∃ x, x ∈ l ∧ f x = Raise e) →
  mapM f l = Raise e.
Proof.
  induction l as [|x l IH]; intros Hall (x0 & Hin & Hfail).
  - by apply elem_of_nil in Hin.
  - cbn [mapM]. destruct (Hall x ltac:(left)) as [-> | [y Hy]]; [done|].
    rewrite Hy. cbn [mbind result_bind].
    apply elem_of_cons in Hin as [-> | Hin]; [congruence|].
    rewrite IH; [done| |eauto]. intros z Hz. apply Hall. by right.
Qed.

Lemma mapM_Return_all {A B} (f : A → result B) (l : list A) :
  (∀ x, x ∈ l → ∃ y, f x = Return y) → ∃ ys, mapM f l = Return ys.
Proof.
  induction l as [|x l IH]; intros Hall; [by exists []|].
  cbn [mapM]. destruct (Hall x ltac:(left)) as [y ->].
  cbn [mbind result_bind].
  destruct IH as [ys ->]; [intros z Hz; apply Hall; by right|].
  cbn [mbind result_bind]. eauto.
Qed.

(** X3. [__detect_minutiae] raises [IndexError] at a pixel of value 1 in
    the last row or in the last column of the image: the neighbour at
    offset (1, 1) lies past the end. *)
Theorem detect_minutiae_far_border (image : ndarray) (row col : Z) :
  np.rectangular image →
  np.cell image row col = Some 1 →
  row = np.shape0 image - 1 ∨ col = np.shape1 image - 1 →
  detect_minutiae image row col = Raise IndexError.
Proof.
  intros Hrect Hcell Hborder.
  pose proof (cell_bounds image row col 1 Hrect Hcell) as [Hrow Hcol].
  unfold detect_minutiae. rewrite (getitem_Some _ _ _ _ Hcell).
  cbn [mbind result_bind]. rewrite decide_True by done.
  rewrite (mapM_Raise _ _ IndexError); [done| |].
  - intros [k l] _. apply getitem_cases.
  - exists (1, 1). split; [unfold kernel; set_solver|].
    apply getitem_past_end; [done|lia].
Qed.

(** X4. [__detect_minutiae] returns at every pixel that is neither in
    the last row nor in the last column, the first row and the first
    column included: there the index -1 wraps around to the far side. *)
Theorem detect_minutiae_near_border (image : ndarray) (row col : Z) :
  np.rectangular image →
  0 ≤ row < np.shape0 image - 1 → 0 ≤ col < np.shape1 image - 1 →
  ∃ minutiae, detect_minutiae image row col = Return minutiae.
Proof.
  intros Hrect Hrow Hcol. unfold detect_minutiae.
  destruct (getitem_wraps image row col Hrect) as [v ->]; [lia..|].
  cbn [mbind result_bind]. case_decide; [|eauto].
  destruct (mapM_Return_all
    (λ '(k, l), np.getitem image (row + l) (col + k)) kernel) as [values ->].
  { intros [k l] Hin. apply getitem_wraps; [done|..];
      unfold kernel in Hin; set_unfold; naive_solver lia. }
  cbn [mbind result_bind]. rewrite ring_differences_spec.
  cbn [mbind result_bind]. repeat case_decide; eauto.
Qed.

(** ** More on the selected region *)

(** X5. When some candidate window is accepted, the selector returns
    the region of an accepted candidate window whose total weight is at
    most that of every accepted candidate window. *)
Theorem get_best_region_minimal (thin w mask : ndarray) (B : Z) (x : Z * Z) :
  B ≠ 0 → candidate thin x → accepted mask B x →
  ∃ y, get_best_region thin w B mask = Return (Some (region_of B y))
       ∧ candidate thin y ∧ accepted mask B y
       ∧ window_sum w B y ≤ window_sum w B x.
Proof.
  intros HB Hcand Hacc.
  destruct (get_best_region_spec thin w B mask HB)
    as [[_ Hnone]|(y & Hy & Hc & Ha & Hmin)]; [by destruct (Hnone x)|].
  exists y. do 3 (split; [done|]). by apply Hmin.
Qed.

(** X6. On a skeleton with at most 8 rows or at most 8 columns the
    loops of [__get_best_region] are empty and it returns [None], whatever
    the weights, the mask and the block size (other than 0). *)
Theorem get_best_region_small_image (thin w mask : ndarray) (B : Z) :
  B ≠ 0 → np.shape0 thin ≤ 8 ∨ np.shape1 thin ≤ 8 →
  get_best_region thin w B mask = Return None.
Proof.
  intros HB Hsmall.
  destruct (get_best_region_spec thin w B mask HB)
    as [[Hnone _]|(y & _ & [Hc Hr] & _)]; [done|lia].
Qed.

Lemma accepted_fits (thin mask : ndarray) (B : Z) (x : Z * Z) :
  B ≠ 0 → binary_mask mask → np.rectangular mask →
  candidate thin x → accepted mask B x →
  0 < B ∧ x.1 * B + 8 * B ≤ np.shape0 mask ∧ x.2 * B + 8 * B ≤ np.shape1 mask.
Proof.
  intros HB Hbin Hrect Hcand Hacc.
  pose proof (accepted_positive thin mask B x HB Hcand Hacc) as Hpos.
  destruct Hcand as [Hc Hr].
  pose proof (full_window mask (x.1 * B) (x.2 * B) (B * 8) Hbin
                ltac:(nia) ltac:(nia) ltac:(lia) Hacc
                (x.1 * B + B * 8 - 1) (x.2 * B + B * 8 - 1)
                ltac:(lia) ltac:(lia)) as Hcell.
  apply cell_bounds in Hcell; [|done]. lia.
Qed.

(** X7. With a 0/1 mask of the shape of the skeleton, a returned region
    starts at least one block away from the top and from the left, the
    block size is positive, and the skeleton holds at least nine blocks
    along each axis. *)
Theorem get_best_region_nine_blocks (thin w mask : ndarray) (B : Z)
    (a b c d : Z) :
  binary_mask mask → np.rectangular mask →
  np.shape0 mask = np.shape0 thin → np.shape1 mask = np.shape1 thin →
  get_best_region thin w B mask = Return (Some [a; b; c; d]) →
  0 < B ∧ B ≤ a ∧ B ≤ c
  ∧ 9 * B ≤ np.shape0 thin ∧ 9 * B ≤ np.shape1 thin.
Proof.
  intros Hbin Hrect H0 H1 Hregion.
  assert (B ≠ 0) as HB.
  { intros ->. unfold get_best_region, py.floordiv in Hregion.
    by rewrite decide_True in Hregion by done. }
  destruct (get_best_region_spec thin w B mask HB)
    as [[Hnone _]|(x & Hsome & Hcand & Hacc & _)]; [congruence|].
  destruct (accepted_fits thin mask B x) as (Hpos & Hb & Hd); [done..|].
  rewrite Hsome in Hregion. unfold region_of in Hregion. simplify_eq.
  destruct Hcand as [Hc Hr]. repeat split; nia.
Qed.

(** X8. The row bound [b] of a returned region comes from the column
    count and the column bound [d] from the row count: for a positive
    block size, [b <= block_size * cols] and [d <= block_size * rows]. *)
Theorem get_best_region_axes (thin w mask : ndarray) (B : Z) (a b c d : Z) :
  0 < B →
  get_best_region thin w B mask = Return (Some [a; b; c; d]) →
  b ≤ B * np.shape1 thin ∧ d ≤ B * np.shape0 thin.
Proof.
  intros HB Hregion.
  destruct (get_best_region_spec thin w B mask)
    as [[Hnone _]|(x & Hsome & [Hc Hr] & _)]; [lia|congruence|].
  rewrite Hsome in Hregion. unfold region_of in Hregion. simplify_eq.
  split; nia.
Qed.

(** X9. Without a positive block size, [__get_best_region] selects
    nothing: it raises [ZeroDivisionError] at block size 0 and returns
    [None] at every negative block size. *)
Theorem get_best_region_nonpositive_block (thin w mask : ndarray) (B : Z) :
  B ≤ 0 →
  get_best_region thin w B mask
  = if decide (B = 0) then Raise ZeroDivisionError else Return None.
Proof.
  intros HB. case_decide as H0.
  - subst. unfold get_best_region, py.floordiv. by rewrite decide_True.
  - destruct (get_best_region_spec thin w B mask H0)
      as [[Hnone _]|(x & _ & Hcand & Hacc & _)]; [done|].
    pose proof (accepted_positive thin mask B x H0 Hcand Hacc). lia.
Qed.

Lemma sum_multiple (m : Z) (l : list Z) :
  Forall (λ v, (m | v)) l → (m | py.sum l).
Proof.
  induction 1 as [|v l Hv _ IH]; simpl.
  - apply Z.divide_0_r.
  - by apply Z.divide_add_r.
Qed.

Lemma window_sum_multiple (m : Z) (a : ndarray) (B : Z) (x : Z * Z) :
  Forall (Forall (λ v, (m | v))) a → (m | window_sum a B x).
Proof.
  intros Ha. unfold window_sum, np.sum, np.slice2.
  apply sum_multiple. rewrite !Forall_fmap.
  eapply Forall_impl; [apply slice_Forall, Ha|]. simpl.
  intros row Hrow. by apply sum_multiple, slice_Forall.
Qed.

Lemma square_residue (r : Z) :
  0 ≤ r < 255 → (64 * (r * r)) `mod` 255 = 0 → r = 0.
Proof.
  intros Hr Hmod.
  assert (forallb (λ r, negb ((64 * (r * r)) `mod` 255 =? 0) || (r =? 0))
                  (seqZ 0 255) = true) as Hall by (vm_compute; reflexivity).
  rewrite forallb_forall in Hall.
  specialize (Hall r). rewrite <- list_elem_of_In, elem_of_seqZ in Hall.
  specialize (Hall ltac:(lia)).
  apply orb_true_iff in Hall as [Hne|Heq]; [|lia].
  apply negb_true_iff, Z.eqb_neq in Hne. done.
Qed.

(** X10. With a mask that holds only 0 and 255, [__get_best_region]
    returns [None] unless the block size is a multiple of 255: the sum of
    a window is a multiple of 255 and the square of the window side is
    not. *)
Theorem get_best_region_opencv_mask (thin w mask : ndarray) (B : Z) :
  opencv_mask mask → B `mod` 255 ≠ 0 →
  get_best_region thin w B mask = Return None.
Proof.
  intros Hmask HB.
  assert (B ≠ 0) as HB0 by (intros ->; done).
  destruct (get_best_region_spec thin w B mask HB0)
    as [[Hnone _]|(x & _ & _ & Hacc & _)]; [done|].
  exfalso. apply HB.
  assert ((255 | window_sum mask B x)) as Hdiv.
  { apply window_sum_multiple.
    eapply Forall_impl; [exact Hmask|]. simpl. intros row Hrow.
    eapply Forall_impl; [exact Hrow|]. simpl.
    intros v [-> | ->]; [apply Z.divide_0_r|apply Z.divide_refl]. }
  unfold accepted in Hacc. rewrite Hacc in Hdiv.
  apply Z.mod_divide in Hdiv; [|done].
  apply square_residue; [apply Z.mod_pos_bound; lia|].
  rewrite <- Hdiv.
  pose proof (Z.div_mod B 255 ltac:(done)) as Hqr.
  set (q := B `div` 255) in *. set (r := B `mod` 255) in *.
  replace (B * 8 * (B * 8))
    with (64 * (r * r) + 64 * (255 * q * q + 2 * q * r) * 255) by nia.
  by rewrite Z_mod_plus_full.
Qed.

(** ** More on the diagonal scan *)

Lemma count_diagonal_lines_half (image : ndarray) :
  np.rectangular image → np.shape0 image ≤ np.shape1 image →
  ∃ counter, count_diagonal_lines image = Return counter
             ∧ 0 ≤ counter ∧ 2 * counter ≤ np.shape0 image + 1.
Proof.
  intros Hrect Hshape. unfold count_diagonal_lines.
  match goal with
  | |- context [for_ ?l ?body ?s] =>
      destruct (for_invariant
        (λ (seen : list Z) (st : bool * Z),
           0 ≤ st.2
           ∧ 2 * st.2 ≤ Z.of_nat (length seen) + (if st.1 then 0 else 1))
        body l s) as ([w n] & -> & Hpos & Hle)
  end.
  - simpl. lia.
  - intros seen i rest [w n] [Hi _]%range_split_fresh [Hpos Hle].
    simpl in Hpos, Hle.
    destruct (cell_in_bounds image i i) as [v Hv]; [done|lia..|].
    rewrite !(getitem_Some _ _ _ v Hv). cbn [mbind result_bind].
    rewrite length_app. simpl length.
    destruct w; case_bool_decide; cbn [andb mbind result_bind];
      (eexists; split; [done|]); case_decide; simpl; lia.
  - simpl in *. rewrite range_length in Hle by (unfold np.shape0; lia).
    cbn [mbind result_bind]. eexists. split; [done|]. destruct w; lia.
Qed.

(** X11. On a rectangular image with at least as many columns as rows,
    [__count_diagonal_lines] returns a count between 0 and half the number
    of rows, rounded up. *)
Theorem count_diagonal_lines_bound (image : ndarray) :
  np.rectangular image → np.shape0 image ≤ np.shape1 image →
  ∃ counter, count_diagonal_lines image = Return counter
             ∧ 0 ≤ counter ∧ 2 * counter ≤ np.shape0 image + 1.
Proof. exact (count_diagonal_lines_half image). Qed.

(** X12. On an image whose diagonal holds only 0 and 255,
    [__count_diagonal_lines] returns the number of 0 cells of the diagonal
    that are the first cell or directly follow a 255 cell. *)
Theorem count_diagonal_lines_runs (image : ndarray) :
  (∀ i, 0 ≤ i < np.shape0 image →
     np.cell image i i = Some 0 ∨ np.cell image i i = Some 255) →
  count_diagonal_lines image = Return (run_starts 255 (diagonal image)).
Proof. exact (count_diagonal_lines_hysteresis image). Qed.

Lemma count_diagonal_lines_short_rows (image : ndarray) :
  np.rectangular image → np.shape1 image < np.shape0 image →
  count_diagonal_lines image = Raise IndexError.
Proof.
  intros Hrect Htall. unfold count_diagonal_lines.
  assert (0 ≤ np.shape1 image) as Hpos.
  { unfold np.shape1. destruct image; lia. }
  assert (py.range 0 (np.shape0 image)
          = py.range 0 (np.shape1 image)
            ++ np.shape1 image
               :: py.range (np.shape1 image + 1) (np.shape0 image)) as ->.
  { unfold py.range.
    replace (np.shape0 image - 0)
      with ((np.shape1 image - 0) + (np.shape0 image - np.shape1 image))
      by lia.
    rewrite seqZ_app by lia. f_equal.
    rewrite seqZ_cons by lia. f_equal; [lia|]. f_equal; lia. }
  rewrite for_app.
  match goal with
  | |- context [for_ (py.range 0 _) ?body ?s] =>
      destruct (for_invariant (λ _ (_ : bool * Z), True) body
                  (py.range 0 (np.shape1 image)) s) as ([w n] & -> & _)
  end.
  - done.
  - intros seen i rest [w n] [Hi _]%range_split_fresh _.
    destruct (cell_in_bounds image i i) as [v Hv]; [done|lia..|].
    rewrite !(getitem_Some _ _ _ v Hv). cbn [mbind result_bind].
    destruct (bool_decide (v = 0) && w); cbn [mbind result_bind]; eauto.
  - cbn [mbind result_bind for_].
    rewrite getitem_past_end by (done || lia). done.
Qed.

(** X13. On a rectangular image with more rows than columns,
    [__count_diagonal_lines] raises [IndexError]. *)
Theorem count_diagonal_lines_tall (image : ndarray) :
  np.rectangular image → np.shape1 image < np.shape0 image →
  count_diagonal_lines image = Raise IndexError.
Proof. exact (count_diagonal_lines_short_rows image). Qed.

(** ** Erosion and thresholding *)

(** X14. On a non-empty crop, the erosion with the 3 x 3 kernel and the
    threshold at 127 that open [__count_lines] turn a pixel into 0 when
    its 3 x 3 neighbourhood inside the crop holds a value of at most 127,
    and into 255 otherwise. *)
Theorem count_lines_thickens (crop : ndarray) :
  0 < np.shape0 crop → 0 < np.shape1 crop →
  ∃ eroded,
    cv2.erode crop (np.ones 3 3) = Return eroded
    ∧ ∀ i j, is_Some (np.cell crop i j) →
        np.cell (cv2.threshold_binary eroded 127 255) i j
        = Some (if dark_nearby crop i j then 0 else 255).
Proof. exact (erode_threshold_cell crop). Qed.

(** ** The skeleton *)

(** X15. Whatever the thinning returns, the output of [__skeletonize]
    holds only 0 and 255 and has the rows of the thinning result; its
    zero test gives the thinning result back as 0/1; and the threshold at
    127 leaves it unchanged. *)
Theorem skeletonize_round_trip (ski_skeletonize : ndarray → list (list bool))
    (img : ndarray) :
  let skeleton := ski_skeletonize (np.eq_int8 img 0) in
  Forall (Forall (λ v, v = 0 ∨ v = 255)) (skeletonize ski_skeletonize img)
  ∧ length <$> skeletonize ski_skeletonize img = length <$> skeleton
  ∧ np.eq_int8 (skeletonize ski_skeletonize img) 0
    = (λ row : list bool, (λ b : bool, if b then 1 else 0) <$> row)
        <$> skeleton
  ∧ cv2.threshold_binary (skeletonize ski_skeletonize img) 127 255
    = skeletonize ski_skeletonize img.
Proof.
  intros skeleton. unfold skeletonize. fold skeleton.
  split; [|split; [|split]].
  - apply Forall_fmap, Forall_forall. intros row _.
    apply Forall_fmap, Forall_forall. intros [] _; simpl; auto.
  - rewrite <- list_fmap_compose. apply list_fmap_ext.
    intros _ row _. simpl. apply length_fmap.
  - unfold np.eq_int8. rewrite <- list_fmap_compose. apply list_fmap_ext.
    intros _ row _. simpl. rewrite <- list_fmap_compose.
    apply list_fmap_ext. by intros _ [] _.
  - unfold cv2.threshold_binary. rewrite <- list_fmap_compose.
    apply list_fmap_ext. intros _ row _. simpl.
    rewrite <- list_fmap_compose. apply list_fmap_ext. by intros _ [] _.
Qed.

(** ** The finishing steps *)

Lemma cell_same_shape (a b : ndarray) (i j : Z) :
  length <$> a = length <$> b →
  is_Some (np.cell b i j) → is_Some (np.cell a i j).
Proof.
  intros Hlen [v (Hi & Hj & row & Hrow & Hv)%cell_Some].
  assert ((length <$> a) !! Z.to_nat i = Some (length row)) as Ha.
  { by rewrite Hlen, list_lookup_fmap, Hrow. }
  rewrite list_lookup_fmap in Ha.
  destruct (a !! Z.to_nat i) as [row'|] eqn:Hrow'; [|done].
  simpl in Ha. simplify_eq.
  apply lookup_lt_Some in Hv.
  destruct (lookup_lt_is_Some_2 row' (Z.to_nat j)) as [v' Hv']; [lia|].
  exists v'. apply cell_Some. eauto.
Qed.

(** The scorer returns on every rectangular image, with a weight image of
    the same shape. *)
Lemma calculate_minutiae_weights_returns (image : ndarray) :
  np.rectangular image →
  ∃ weights, calculate_minutiae_weights image = Return weights
             ∧ length <$> weights = length <$> image.
Proof.
  intros Hrect. unfold calculate_minutiae_weights.
  match goal with
  | |- context [for_ ?l ?body ?s] =>
      destruct (for_invariant
        (λ _ (w : ndarray), length <$> w = length <$> image) body l s)
        as (w & Hw & Hlen)
  end.
  - unfold np.zeros_like. rewrite <- list_fmap_compose.
    apply list_fmap_ext. intros _ row _. simpl. by rewrite length_fmap.
  - intros cols col rest w [Hcol _]%range_split_fresh Hlen.
    match goal with
    | |- context [for_ ?l ?body ?s] =>
        destruct (for_invariant
          (λ _ (w : ndarray), length <$> w = length <$> image) body l s)
          as (w' & Hw' & Hlen')
    end; [done| |eauto].
    intros rows row rest' w0 [Hrow _]%range_split_fresh Hlen0.
    rewrite detect_minutiae_interior by (done || (split; lia)).
    cbn [mbind result_bind].
    destruct (cell_same_shape w0 image row col Hlen0) as [old Hold].
    { apply cell_in_bounds; [done|lia..]. }
    destruct (iadd_spec w0 row col 1 old Hold) as (w1 & Hw1 & Hlen1 & _).
    destruct (iadd_spec w0 row col 2 old Hold) as (w2 & Hw2 & Hlen2 & _).
    repeat case_decide; eauto; eexists; split; eauto; congruence.
  - eauto.
Qed.

Section pipeline_properties.

Variable ski_skeletonize : ndarray → list (list bool).
Variable cv2_line : canvas → Z * Z → Z * Z → Z * Z * Z → Z → canvas.
Variable cv2_putText : canvas → string → Z * Z → Z * Z * Z → Z → canvas.
Variable cv2_rectangle : canvas → Z * Z → Z * Z → Z * Z * Z → Z → canvas.

(** The annotator returns on a non-empty input, without a region or with
    a square region inside the skeleton. *)
Lemma draw_ridges_count_on_region_returns
    (h : gmap positive mat) (region : option (list Z))
    (input_image thin_image : positive) (block_size : Z) (source : ndarray) :
  h !! input_image = Some (Gray source) →
  0 < np.shape0 source → 0 < np.shape1 source →
  (region = None
   ∨ ∃ skeleton a c S,
       h !! thin_image = Some (Gray skeleton) ∧ np.rectangular skeleton
       ∧ 0 ≤ a ∧ 0 ≤ c ∧ 0 < S
       ∧ a + S ≤ np.shape0 skeleton ∧ c + S ≤ np.shape1 skeleton
       ∧ region = Some [a; a + S; c; c + S]) →
  ∃ out h',
    draw_ridges_count_on_region cv2_line cv2_putText cv2_rectangle
      region input_image thin_image block_size h = (Return out, h')
    ∧ h ⊆ h' ∧ h !! out = None
    ∧ (∃ drawn, h' !! out = Some (Color drawn))
    ∧ (region = None → h' !! out = Some (Color (cv2.gray_to_rgb source))).
Proof.
  intros Hin Hrows Hcols Hregion.
  set (copy := fresh (dom h)).
  assert (h !! copy = None) as Hcopy by apply not_elem_of_dom, is_fresh.
  set (h1 := <[copy := Gray source]> h).
  assert (h ⊆ h1) as Hh1 by (by apply insert_subseteq).
  set (out := fresh (dom h1)).
  assert (h1 !! out = None) as Hout1 by apply not_elem_of_dom, is_fresh.
  assert (h !! out = None) as Hout by (eapply lookup_weaken_None; done).
  set (h2 := <[out := Color (cv2.gray_to_rgb source)]> h1).
  assert (annotating h out h2) as Hinv.
  { split.
    - etrans; [exact Hh1|]. by apply insert_subseteq.
    - eexists. unfold h2. by rewrite lookup_insert_eq. }
  unfold draw_ridges_count_on_region.
  erewrite M_bind_Return; [|unfold read_gray; by rewrite Hin].
  rewrite (M_bind_Return (alloc _) _ h copy h1); [|reflexivity].
  erewrite M_bind_Return;
    [|unfold read_gray, h1; by rewrite lookup_insert_eq].
  erewrite M_bind_Return;
    [|unfold lift, cv2.cvtColor_GRAY2RGB; by rewrite decide_False by lia].
  rewrite (M_bind_Return (alloc _) _ h1 out h2); [|reflexivity].
  destruct Hregion
    as [->|(skeleton & a & c & S & Hthin & Hrect & Ha & Hc & HS
            & Hfit0 & Hfit1 & ->)].
  { exists out, h2. destruct Hinv as [Hsub Hcolor].
    split; [done|]. split; [done|]. split; [done|]. split; [done|].
    intros _. unfold h2. by rewrite lookup_insert_eq. }
  destruct Hinv as [Hsub2 [drawn Hdrawn]].
  erewrite M_bind_Return;
    [|unfold read_gray; by rewrite (lookup_weaken _ _ _ _ Hthin Hsub2)].
  do 4 (erewrite M_bind_Return; [|reflexivity]).
  set (region_copy := fresh (dom h2)).
  assert (h2 !! region_copy = None) as Hfresh
    by apply not_elem_of_dom, is_fresh.
  set (crop := np.slice2 skeleton a (a + S) c (c + S)).
  set (h3 := <[region_copy := Gray crop]> h2).
  rewrite (M_bind_Return (alloc _) _ h2 region_copy h3); [|reflexivity].
  erewrite M_bind_Return;
    [|unfold read_gray, h3; by rewrite lookup_insert_eq].
  destruct (slice2_shape skeleton a (a + S) c (c + S))
    as (H0 & H1 & Hcrop); [done|lia..|].
  destruct (count_lines_crop crop)
    as (? & main & sec & _ & _ & _ & _ & Hcount);
    [done|unfold crop; lia..|].
  erewrite M_bind_Return; [|unfold lift; by rewrite Hcount].
  assert (annotating h out h3) as Hinv3.
  { split.
    - etrans; [exact Hsub2|]. by apply insert_subseteq.
    - exists drawn. unfold h3. rewrite lookup_insert_ne; [done|].
      congruence. }
  match goal with
  | |- ∃ _ _, ?m ?hh = _ ∧ _ =>
      change hh with h3;
      assert (succeeds (annotating h out) m) as Hsucc;
      [|assert (returns m (λ got, got = out)) as Hret;
        [|destruct (Hsucc h3 Hinv3) as (got & Hl & Hsub & Hcolor);
          pose proof (Hret h3 got Hl) as ->;
          exists out, (snd (m h3));
          destruct (m h3) as [res hf]; simpl in *; subst res]]
  end.
  { case_decide; simpl;
      repeat (apply succeeds_bind; [|intros ?]);
      auto using succeeds_ret, succeeds_draw, succeeds_draw_diagonal. }
  { case_decide; simpl;
      repeat (apply returns_bind; intros ?); by apply returns_ret. }
  split; [done|]. split; [done|]. split; [done|]. split; [done|]. intros [=].
Qed.

(** X16. When no candidate window of the skeleton is accepted by the
    mask, [seventh_step] returns a new array, the three-channel copy of the
    input image with nothing drawn on it, and leaves every array of the
    store unchanged. *)
Theorem seventh_step_fallback (h : gmap positive mat) (self : recognizer)
    (source thin weights mask : ndarray) :
  h !! self_image self = Some (Gray source) →
  0 < np.shape0 source → 0 < np.shape1 source →
  h !! self_thin_image self = Some (Gray thin) →
  h !! self_minutiae_weights_image self = Some (Gray weights) →
  h !! self_mask self = Some (Gray mask) →
  (∀ x, candidate thin x → ¬ accepted mask 15 x) →
  ∃ out h',
    seventh_step cv2_line cv2_putText cv2_rectangle self h = (Return out, h')
    ∧ h ⊆ h' ∧ h !! out = None
    ∧ h' !! out = Some (Color (cv2.gray_to_rgb source)).
Proof.
  intros Hin Hrows Hcols Hthin Hweights Hmask Hnone.
  unfold seventh_step. cbn zeta.
  erewrite M_bind_Return; [|unfold read_gray; by rewrite Hthin].
  erewrite M_bind_Return; [|unfold read_gray; by rewrite Hweights].
  erewrite M_bind_Return; [|unfold read_gray; by rewrite Hmask].
  destruct (get_best_region_spec thin weights 15 mask)
    as [[Hregion _]|(x & _ & Hcand & Hacc & _)];
    [done| |by destruct (Hnone x)].
  erewrite M_bind_Return; [|unfold lift; by rewrite Hregion].
  destruct (draw_ridges_count_on_region_returns h None
              (self_image self) (self_thin_image self) 15 source)
    as (out & h' & Hrun & Hsub & Hout & _ & Hcolor); [done..|by left|].
  exists out, h'. auto.
Qed.

(** X17. [run_second_phase] returns a new three-channel array and keeps
    every array of the store, whenever the input image is non-empty, the
    Gabor image is rectangular, the thinning keeps the shape and the mask
    is a 0/1 array of that shape; the recognizer then refers to the
    skeleton of the Gabor image, and to the same image and mask. *)
Theorem run_second_phase_returns (h : gmap positive mat) (self : recognizer)
    (source gabor mask : ndarray) :
  h !! self_image self = Some (Gray source) →
  0 < np.shape0 source → 0 < np.shape1 source →
  h !! self_gabor_img self = Some (Gray gabor) → np.rectangular gabor →
  length <$> ski_skeletonize (np.eq_int8 gabor 0) = length <$> gabor →
  h !! self_mask self = Some (Gray mask) →
  binary_mask mask → length <$> mask = length <$> gabor →
  ∃ out self' h' drawn,
    run_second_phase ski_skeletonize cv2_line cv2_putText cv2_rectangle
      self h = (Return (out, self'), h')
    ∧ h ⊆ h' ∧ h !! out = None ∧ h' !! out = Some (Color drawn)
    ∧ h' !! self_thin_image self'
      = Some (Gray (skeletonize ski_skeletonize gabor))
    ∧ self_image self' = self_image self
    ∧ self_mask self' = self_mask self.
Proof.
  intros Hin Hrows Hcols Hgabor Hrect Hthinning Hmask Hbin Hshape.
  set (thin := skeletonize ski_skeletonize gabor).
  assert (length <$> thin = length <$> gabor) as Hthin_shape.
  { unfold thin, skeletonize. rewrite <- Hthinning.
    rewrite <- list_fmap_compose. apply list_fmap_ext.
    intros _ row _. simpl. apply length_fmap. }
  destruct (shape_of_row_lengths thin gabor Hthin_shape)
    as (Ht0 & Ht1 & Htr).
  destruct (shape_of_row_lengths mask gabor Hshape) as (Hm0 & Hm1 & Hmr).
  specialize (Htr Hrect). specialize (Hmr Hrect).
  destruct (calculate_minutiae_weights_returns thin Htr)
    as (weights & Hweights & _).
  (* fifth step *)
  set (t := fresh (dom h)).
  assert (h !! t = None) as Ht by apply not_elem_of_dom, is_fresh.
  set (h1 := <[t := Gray thin]> h).
  assert (h ⊆ h1) as Hh1 by (by apply insert_subseteq).
  (* sixth step *)
  set (wl := fresh (dom h1)).
  assert (h1 !! wl = None) as Hwl by apply not_elem_of_dom, is_fresh.
  set (h2 := <[wl := Gray weights]> h1).
  assert (h1 ⊆ h2) as Hh2 by (by apply insert_subseteq).
  assert (h ⊆ h2) as Hh02 by (by etrans).
  assert (h2 !! t = Some (Gray thin)) as Ht2.
  { apply (lookup_weaken h1); [|done]. unfold h1. by rewrite lookup_insert_eq. }
  assert (h2 !! wl = Some (Gray weights)) as Hwl2
    by (unfold h2; by rewrite lookup_insert_eq).
  unfold run_second_phase, fifth_step.
  erewrite M_bind_Return.
  2: { erewrite M_bind_Return; [|unfold read_gray; by rewrite Hgabor].
       erewrite M_bind_Return; [|reflexivity]. reflexivity. }
  fold thin t h1. cbv beta iota. unfold sixth_step. cbn [self_thin_image].
  erewrite M_bind_Return.
  2: { erewrite M_bind_Return;
         [|unfold read_gray, h1; by rewrite lookup_insert_eq].
       erewrite M_bind_Return; [|unfold lift; by rewrite Hweights].
       erewrite M_bind_Return; [|reflexivity]. reflexivity. }
  fold wl h2. cbv beta iota.
  (* seventh step *)
  unfold seventh_step. cbn zeta.
  cbn [self_thin_image self_minutiae_weights_image self_mask self_image].
  assert (∃ out h',
    (read_gray t
     ≫= λ thin_image, read_gray wl
     ≫= λ minutiae_weights_image, read_gray (self_mask self)
     ≫= λ mask0, lift (get_best_region thin_image minutiae_weights_image
                                       15 mask0)
     ≫= λ best_region,
          draw_ridges_count_on_region cv2_line cv2_putText cv2_rectangle
            best_region (self_image self) t 15) h2 = (Return out, h')
    ∧ h2 ⊆ h' ∧ h2 !! out = None ∧ ∃ drawn, h' !! out = Some (Color drawn))
    as (out & h' & Hrun & Hsub & Hout & drawn & Hdrawn).
  { erewrite M_bind_Return; [|unfold read_gray; by rewrite Ht2].
    erewrite M_bind_Return; [|unfold read_gray; by rewrite Hwl2].
    erewrite M_bind_Return;
      [|unfold read_gray; by rewrite (lookup_weaken _ _ _ _ Hmask Hh02)].
    assert (∃ region,
      get_best_region thin weights 15 mask = Return region
      ∧ (region = None
         ∨ ∃ skeleton a c S,
             h2 !! t = Some (Gray skeleton) ∧ np.rectangular skeleton
             ∧ 0 ≤ a ∧ 0 ≤ c ∧ 0 < S
             ∧ a + S ≤ np.shape0 skeleton ∧ c + S ≤ np.shape1 skeleton
             ∧ region = Some [a; a + S; c; c + S]))
      as (region & Hregion & Hvalid).
    { destruct (get_best_region_spec thin weights 15 mask)
        as [[Hregion _]|(x & Hregion & Hcand & Hacc & _)]; [done|eauto|].
      eexists. split; [exact Hregion|]. right.
      destruct (accepted_fits thin mask 15 x) as (_ & Hb & Hd); [done..|].
      destruct Hcand as [Hc Hr].
      exists thin, (x.1 * 15), (x.2 * 15), (15 * 8).
      split; [done|]. split; [done|]. repeat split; try lia. }
    erewrite M_bind_Return; [|unfold lift; by rewrite Hregion].
    destruct (draw_ridges_count_on_region_returns h2 region
                (self_image self) t 15 source)
      as (out & h' & Hrun & Hsub & Hout & Hcolor & _);
      [by apply (lookup_weaken h)|done..|].
    exists out, h'. auto. }
  exists out. eexists. exists h', drawn.
  split.
  { erewrite M_bind_Return; [|exact Hrun]. reflexivity. }
  split; [by etrans|]. split; [by eapply lookup_weaken_None|].
  split; [done|]. cbn [self_thin_image self_image self_mask].
  split; [|done]. by apply (lookup_weaken h2).
Qed.

End pipeline_properties.

(** ** The ridge counter on crops of any shape *)

(** X18. On a rectangular crop with more rows than columns, and at
    least one column, [__count_lines] raises [IndexError]. *)
Theorem count_lines_tall (crop : ndarray) :
  np.rectangular crop → 0 < np.shape1 crop → np.shape1 crop < np.shape0 crop →
  count_lines crop = Raise IndexError.
Proof.
  intros Hrect H1 Htall.
  destruct (erode_shape crop (np.ones 3 3)) as (eroded & Herode & Hlen);
    [lia..|].
  set (binary := cv2.threshold_binary eroded 127 255).
  assert (length <$> binary = length <$> crop) as Hbin.
  { unfold binary. by rewrite threshold_binary_shape. }
  destruct (shape_of_row_lengths binary crop Hbin) as (Hb0 & Hb1 & Hbr).
  unfold count_lines. rewrite Herode. cbn [mbind result_bind].
  fold binary. rewrite (count_diagonal_lines_short_rows binary); [reflexivity|auto|lia].
Qed.

(** X19. On a non-empty rectangular crop with at least as many columns
    as rows, [__count_lines] returns a count between 0 and half the number
    of rows, rounded up, labelled as secondary diagonal or, with a count of
    at least 1, as main diagonal. *)
Theorem count_lines_bound (crop : ndarray) :
  np.rectangular crop → 0 < np.shape0 crop → np.shape0 crop ≤ np.shape1 crop →
  ∃ line_count line_type,
    count_lines crop = Return (line_count, line_type)
    ∧ 0 ≤ line_count ∧ 2 * line_count ≤ np.shape0 crop + 1
    ∧ (line_type = "secondary_diagonal"%string
       ∨ line_type = "main_diagonal"%string ∧ 1 ≤ line_count).
Proof.
  intros Hrect H0 H1.
  destruct (count_lines_crop crop Hrect H0 H1)
    as (eroded & main & sec & _ & Hlen & Hmain & Hsec & ->).
  set (binary := cv2.threshold_binary eroded 127 255) in *.
  assert (length <$> binary = length <$> crop) as Hbin.
  { unfold binary. by rewrite threshold_binary_shape. }
  destruct (shape_of_row_lengths binary crop Hbin) as (Hb0 & Hb1 & Hbr).
  assert (length <$> np.fliplr binary = length <$> crop) as Hflip.
  { by rewrite fliplr_shape. }
  destruct (shape_of_row_lengths (np.fliplr binary) crop Hflip)
    as (Hf0 & Hf1 & Hfr).
  destruct (count_diagonal_lines_half binary) as (m & Hm & Hm0 & Hm1);
    [auto|lia|].
  destruct (count_diagonal_lines_half (np.fliplr binary))
    as (s & Hs & Hs0 & Hs1); [auto|lia|].
  assert (m = main) as -> by congruence.
  assert (s = sec) as -> by congruence.
  case_decide; do 2 eexists; (split; [done|]).
  - split; [lia|]. split; [lia|]. by left.
  - split; [lia|]. split; [lia|]. right. split; [done|lia].
Qed.

(** ** Worked examples of the further properties *)

Lemma detect_minutiae_single_neighbour_witness :
  detect_minutiae (np.eq_int8 skeleton_end 0) 1 1 = Return "termination"%string.
Proof.
  apply (detect_minutiae_single_neighbour skeleton_end 1 1).
  - repeat constructor.
  - vm_compute. intuition congruence.
  - reflexivity.
  - reflexivity.
Defined.

Lemma detect_minutiae_neighbour_counts_witness :
  ridge skeleton_fork 1 2 = 1 ∧ 3 ≤ ridge_neighbours skeleton_fork 1 2 ≤ 5.
Proof.
  apply (proj1 (detect_minutiae_neighbour_counts skeleton_fork 1 2
                  ltac:(repeat constructor)
                  ltac:(vm_compute; intuition congruence))).
  reflexivity.
Defined.

Lemma detect_minutiae_far_border_witness :
  detect_minutiae bits_last_row 1 1 = Raise IndexError.
Proof.
  apply (detect_minutiae_far_border bits_last_row 1 1).
  - repeat constructor.
  - reflexivity.
  - left. reflexivity.
Defined.

Lemma detect_minutiae_near_border_witness :
  ∃ minutiae, detect_minutiae (np.full 3 3 1) 0 0 = Return minutiae.
Proof.
  apply (detect_minutiae_near_border (np.full 3 3 1) 0 0).
  - repeat constructor.
  - vm_compute. intuition congruence.
  - vm_compute. intuition congruence.
Defined.

Lemma get_best_region_minimal_witness :
  ∃ y, get_best_region (np.full 10 10 255) weights_top 1 (np.full 10 10 1)
       = Return (Some (region_of 1 y))
       ∧ candidate (np.full 10 10 255) y ∧ accepted (np.full 10 10 1) 1 y
       ∧ window_sum weights_top 1 y ≤ window_sum weights_top 1 (1, 1).
Proof.
  apply (get_best_region_minimal
           (np.full 10 10 255) weights_top (np.full 10 10 1) 1 (1, 1)).
  - lia.
  - vm_compute. intuition congruence.
  - vm_compute. reflexivity.
Defined.

Lemma get_best_region_small_image_witness :
  get_best_region (np.full 8 20 255) (np.full 8 20 0) 1 (np.full 8 20 1)
  = Return None.
Proof.
  apply (get_best_region_small_image
           (np.full 8 20 255) (np.full 8 20 0) (np.full 8 20 1) 1).
  - lia.
  - left. vm_compute. congruence.
Defined.

Lemma get_best_region_nine_blocks_witness :
  0 < 1 ∧ 1 ≤ 2 ∧ 1 ≤ 2
  ∧ 9 * 1 ≤ np.shape0 (np.full 10 10 255)
  ∧ 9 * 1 ≤ np.shape1 (np.full 10 10 255).
Proof.
  apply (get_best_region_nine_blocks
           (np.full 10 10 255) (np.full 10 10 0) (np.full 10 10 1) 1
           2 10 2 10 (full_binary 10 10) (full_rectangular 10 10 1)
           eq_refl eq_refl).
  vm_compute. reflexivity.
Defined.

Lemma get_best_region_axes_witness :
  10 ≤ 1 * np.shape1 (np.full 10 10 255)
  ∧ 10 ≤ 1 * np.shape0 (np.full 10 10 255).
Proof.
  apply (get_best_region_axes
           (np.full 10 10 255) (np.full 10 10 0) (np.full 10 10 1) 1
           2 10 2 10).
  - lia.
  - vm_compute. reflexivity.
Defined.

Lemma get_best_region_nonpositive_block_witness :
  get_best_region (np.full 10 10 255) (np.full 10 10 0) (-1) (np.full 10 10 1)
  = Return None.
Proof.
  apply (get_best_region_nonpositive_block
           (np.full 10 10 255) (np.full 10 10 0) (np.full 10 10 1) (-1)).
  lia.
Defined.

Lemma get_best_region_opencv_mask_witness :
  get_best_region (np.full 10 10 255) (np.full 10 10 0) 1 (np.full 10 10 255)
  = Return None.
Proof.
  apply (get_best_region_opencv_mask
           (np.full 10 10 255) (np.full 10 10 0) (np.full 10 10 255) 1).
  - apply Forall_forall. intros row ->%elem_of_replicate_inv.
    apply Forall_forall. intros v ->%elem_of_replicate_inv. by right.
  - vm_compute. congruence.
Defined.

Lemma count_diagonal_lines_bound_witness :
  ∃ counter, count_diagonal_lines skeleton_fork = Return counter
             ∧ 0 ≤ counter ∧ 2 * counter ≤ np.shape0 skeleton_fork + 1.
Proof.
  apply (count_diagonal_lines_bound skeleton_fork).
  - repeat constructor.
  - vm_compute. congruence.
Defined.

Lemma count_diagonal_lines_runs_witness :
  count_diagonal_lines skeleton_fork
  = Return (run_starts 255 (diagonal skeleton_fork)).
Proof.
  apply (count_diagonal_lines_runs skeleton_fork).
  intros i Hi. change (np.shape0 skeleton_fork) with 4 in Hi.
  assert (i = 0 ∨ i = 1 ∨ i = 2 ∨ i = 3) as [-> | [-> | [-> | ->]]]
    by lia; vm_compute; auto.
Defined.

Lemma count_diagonal_lines_tall_witness :
  count_diagonal_lines (np.full 2 1 255) = Raise IndexError.
Proof.
  apply (count_diagonal_lines_tall (np.full 2 1 255)).
  - repeat constructor.
  - vm_compute. reflexivity.
Defined.

Lemma count_lines_thickens_witness :
  ∃ eroded,
    cv2.erode crop_dot (np.ones 3 3) = Return eroded
    ∧ ∀ i j, is_Some (np.cell crop_dot i j) →
        np.cell (cv2.threshold_binary eroded 127 255) i j
        = Some (if dark_nearby crop_dot i j then 0 else 255).
Proof.
  apply (count_lines_thickens crop_dot).
  - vm_compute. reflexivity.
  - vm_compute. reflexivity.
Defined.

Lemma seventh_step_fallback_witness :
  ∃ out h',
    seventh_step (λ c _ _ _ _, c) (λ c _ _ _ _, c) (λ c _ _ _ _, c)
      self_example store_example = (Return out, h')
    ∧ store_example ⊆ h' ∧ store_example !! out = None
    ∧ h' !! out = Some (Color (cv2.gray_to_rgb [[1; 2]; [3; 4]])).
Proof.
  apply (seventh_step_fallback
           (λ c _ _ _ _, c) (λ c _ _ _ _, c) (λ c _ _ _ _, c)
           store_example self_example
           [[1; 2]; [3; 4]] [[0; 255]; [255; 0]] [[0; 0]; [0; 0]]
           [[1; 1]; [1; 1]]).
  - reflexivity.
  - vm_compute. reflexivity.
  - vm_compute. reflexivity.
  - reflexivity.
  - reflexivity.
  - reflexivity.
  - intros x [Hc _]. change (np.shape1 _) with 2 in Hc. lia.
Defined.

Lemma run_second_phase_returns_witness :
  ∃ out self' h' drawn,
    run_second_phase thinning_example
      (λ c _ _ _ _, c) (λ c _ _ _ _, c) (λ c _ _ _ _, c)
      self_example store_example = (Return (out, self'), h')
    ∧ store_example ⊆ h' ∧ store_example !! out = None
    ∧ h' !! out = Some (Color drawn)
    ∧ h' !! self_thin_image self'
      = Some (Gray (skeletonize thinning_example [[0; 255]; [255; 0]]))
    ∧ self_image self' = self_image self_example
    ∧ self_mask self' = self_mask self_example.
Proof.
  apply (run_second_phase_returns thinning_example
           (λ c _ _ _ _, c) (λ c _ _ _ _, c) (λ c _ _ _ _, c)
           store_example self_example
           [[1; 2]; [3; 4]] [[0; 255]; [255; 0]] [[1; 1]; [1; 1]]).
  - reflexivity.
  - vm_compute. reflexivity.
  - vm_compute. reflexivity.
  - reflexivity.
  - repeat constructor.
  - reflexivity.
  - reflexivity.
  - exact (full_binary 2 2).
  - reflexivity.
Defined.

Lemma count_lines_tall_witness :
  count_lines (np.full 2 1 255) = Raise IndexError.
Proof.
  apply (count_lines_tall (np.full 2 1 255)).
  - repeat constructor.
  - vm_compute. reflexivity.
  - vm_compute. reflexivity.
Defined.

Lemma count_lines_bound_witness :
  ∃ line_count line_type,
    count_lines crop_dot = Return (line_count, line_type)
    ∧ 0 ≤ line_count ∧ 2 * line_count ≤ np.shape0 crop_dot + 1
    ∧ (line_type = "secondary_diagonal"%string
       ∨ line_type = "main_diagonal"%string ∧ 1 ≤ line_count).
Proof.
  apply (count_lines_bound crop_dot).
  - repeat constructor.
  - vm_compute. reflexivity.
  - vm_compute. congruence.
Defined.
